(** * Localhost tunnel: relay (tunnel-relay.js) and client (tunnel-client.js)

    A shallow embedding of the relay's registry / pending-table event
    handlers and of the client's reconnect and request handlers, followed
    by the properties of the specification that concern them.

    Conventions of the embedding.
    - A frame received on a WebSocket is given after [JSON.parse]: either
      the parse threw ([Malformed]) or it produced a JSON value.
    - A JavaScript value that may be [undefined] is an [option json].
    - JavaScript [Map]s keyed by strings are [gmap string _]; objects
      whose identity matters (sockets, [res] objects, timers) are named by
      natural numbers allocated from counters of the state.
    - A response sink ([res]) records every [writeHead]/[end] pair that
      completes on it; [res.headersSent] is "the record is not empty".
    - Sources of non-determinism ([crypto.randomBytes], [Date.now],
      [Math.random], the outcome of the local HTTP call, whether Node
      completes a [writeHead]/[end] pair whose arguments come from a
      message) are inputs of the events that consume them. *)

From Stdlib Require Import ZArith NArith String Ascii DecimalString Lia.
From Stdlib.Strings Require Import Byte.
From stdpp Require Import gmap strings list fin_maps.

Local Open Scope string_scope.
Set Warnings "-register-all".

(** ** JavaScript values and strings *)

(** The value of [JSON.parse]. The numbers of the protocol (ports, status
    codes) are integers. [JObj] lists the properties of the parsed object
    in order, each key once; a property read takes the first binding. *)
Inductive json : Type :=
| JNull
| JBool (b : bool)
| JNum (n : Z)
| JStr (s : string)
| JArr (items : list json)
| JObj (props : list (string * json)).

(** [None] is [undefined]. *)
Definition jsval : Type := option json.

(** A step of JavaScript either completes or throws. *)
Inductive completion (A : Type) : Type :=
| Normal (a : A)
| Thrown.
Arguments Normal {A} a.
Arguments Thrown {A}.

(** The result of [JSON.parse(data)] inside the handler. *)
Inductive frame : Type :=
| Malformed
| Parsed (msg : json).

Fixpoint assoc {A : Type} (k : string) (l : list (string * A)) : option A :=
  match l with
  | [] => None
  | (k', v) :: rest => if String.eqb k k' then Some v else assoc k rest
  end.

(** [v.k] : a property read throws on [null], is [undefined] on the
    other primitives (for the property names used here) and on arrays. *)
Definition get_prop (v : json) (k : string) : completion jsval :=
  match v with
  | JNull => Thrown
  | JObj props => Normal (assoc k props)
  | _ => Normal None
  end.

(** Property read on a value already known to be an object or primitive
    other than [null] (destructuring after a successful [msg.type]). *)
Definition prop (v : json) (k : string) : jsval :=
  match get_prop v k with
  | Normal x => x
  | Thrown => None
  end.

(** JavaScript truthiness, as used by [||] and [if]. *)
Definition truthy (v : jsval) : bool :=
  match v with
  | None => false
  | Some JNull => false
  | Some (JBool b) => b
  | Some (JNum n) => negb (Z.eqb n 0)
  | Some (JStr s) => negb (String.eqb s "")
  | Some (JArr _) => true
  | Some (JObj _) => true
  end.

(** [a || b] *)
Definition or_else (a : jsval) (b : json) : json :=
  match a with
  | Some x => if truthy a then x else b
  | None => b
  end.

(** [s.startsWith(p)] *)
Definition startsWith (s p : string) : bool := String.prefix p s.

(** [s.split(sep)[0]] for a one-character separator. *)
Fixpoint before (sep : ascii) (s : string) : string :=
  match s with
  | EmptyString => EmptyString
  | String c rest =>
      if Ascii.eqb c sep then EmptyString else String c (before sep rest)
  end.

(** Decimal rendering of a non-negative integer in a template literal. *)
Definition show_N (n : N) : string := NilZero.string_of_uint (N.to_uint n).
Definition show_nat (n : nat) : string := NilZero.string_of_uint (Nat.to_uint n).

(** ** [Buffer.toString('hex')] *)

Definition hex_digit (n : N) : ascii :=
  match n with
  | 0 => "0" | 1 => "1" | 2 => "2" | 3 => "3" | 4 => "4" | 5 => "5"
  | 6 => "6" | 7 => "7" | 8 => "8" | 9 => "9" | 10 => "a" | 11 => "b"
  | 12 => "c" | 13 => "d" | 14 => "e" | _ => "f"
  end%N%char.

Fixpoint toString_hex (bs : list byte) : string :=
  match bs with
  | [] => EmptyString
  | b :: rest =>
      let n := Byte.to_N b in
      String (hex_digit (n / 16)) (String (hex_digit (n mod 16)) (toString_hex rest))
  end.

(** The six bytes returned by [crypto.randomBytes(6)]. *)
Definition random6 : Type := (byte * byte * byte * byte * byte * byte)%type.

Definition bytes_of (r : random6) : list byte :=
  let '(a, b, c, d, e, f) := r in [a; b; c; d; e; f].

(** ** Objects as ordered property lists *)

(** [o[k] = v]: an existing property keeps its position. *)
Fixpoint set_prop (k : string) (v : json) (o : list (string * json)) : list (string * json) :=
  match o with
  | [] => [(k, v)]
  | (k', v') :: rest =>
      if String.eqb k k' then (k, v) :: rest else (k', v') :: set_prop k v rest
  end.

Fixpoint indexed {A : Type} (i : nat) (l : list A) : list (string * A) :=
  match l with
  | [] => []
  | x :: rest => (show_nat i, x) :: indexed (S i) rest
  end.

(** The own enumerable properties copied by [{...v}]: those of an
    object, the indices of an array or of a string, none otherwise. *)
Definition spread (v : jsval) : list (string * json) :=
  match v with
  | Some (JObj props) => props
  | Some (JArr items) => indexed 0 items
  | Some (JStr s) =>
      indexed 0 ((λ c, JStr (String c EmptyString)) <$> list_ascii_of_string s)
  | _ => []
  end.

(** A property whose value is [undefined] is left out by
    [JSON.stringify]. *)
Definition field (k : string) (v : jsval) : list (string * json) :=
  match v with
  | Some x => [(k, x)]
  | None => []
  end.

Module Relay.

(** ** Configuration and constants *)

Record config : Type := {
  HTTP_PORT : string;
  BASE_DOMAIN : string
}.

Definition default_config : config :=
  {| HTTP_PORT := "8081"; BASE_DOMAIN := "tunnel.localhost" |}.

Definition REQUEST_TIMEOUT : Z := 30000.

(** [generateSubdomain()], given the bytes drawn. *)
Definition generateSubdomain (r : random6) : string :=
  toString_hex (bytes_of r).

(** ** State *)

Inductive ready_state : Type := CONNECTING | OPEN | CLOSING | CLOSED.

Global Instance ready_state_eq_dec : EqDecision ready_state.
Proof. solve_decision. Defined.

(** What the relay wrote into a [res]: the arguments of [writeHead] and
    of [end]. *)
Inductive payload : Type :=
| Chunk (v : jsval)            (* res.end(v) *)
| Stringified (j : json).      (* res.end(JSON.stringify(j)) *)

Record response : Type := {
  status : jsval;
  headers : jsval;
  body : payload
}.

Definition text (s : string) : payload := Chunk (Some (JStr s)).

Definition plain (code : Z) (msg : string) : response :=
  {| status := Some (JNum code);
     headers := Some (JObj [("Content-Type", JStr "text/plain")]);
     body := text msg |}.

(** A decoded public request. *)
Record request : Type := {
  req_method : string;
  req_url : string;
  req_headers : list (string * string)
}.

(** One accepted WebSocket with the closure variables of its handlers. *)
Record connection : Type := {
  remoteAddress : string;
  readyState : ready_state;
  subdomain : option string;
  pingInterval : option nat;
  outbox : list json
}.

Record tunnel : Type := {
  ws : nat;
  localPort : json
}.

(** The timer armed by [forwardRequest]; its callback captured the
    request id, and the [res] is the one with the timer's own name. *)
Record timer : Type := {
  timer_id : string;
  timer_delay : Z
}.

(** A public request whose body is still being collected. *)
Record inflight : Type := {
  in_ws : nat;
  in_id : string;
  in_req : request;
  in_body : string
}.

(** A public request is named by a number [h]; [h] names its [res] and,
    once armed, its timeout timer, so the entry [{ res, timer }] of
    [pendingResponses] is the number [h]. *)
Record relay : Type := {
  tunnels : gmap string tunnel;
  pendingResponses : gmap string nat;
  timers : gmap nat timer;
  sinks : gmap nat (list response);
  collecting : gmap nat inflight;
  conns : gmap nat connection;
  intervals : gmap nat nat;
  next_req : nat;
  next_conn : nat;
  next_interval : nat
}.

Definition initial : relay :=
  {| tunnels := ∅; pendingResponses := ∅; timers := ∅; sinks := ∅;
     collecting := ∅; conns := ∅; intervals := ∅;
     next_req := 0; next_conn := 0; next_interval := 0 |}.

Definition set_tunnels (f : gmap string tunnel → gmap string tunnel) (s : relay) : relay :=
  {| tunnels := f (tunnels s); pendingResponses := pendingResponses s;
     timers := timers s; sinks := sinks s; collecting := collecting s;
     conns := conns s; intervals := intervals s; next_req := next_req s;
     next_conn := next_conn s; next_interval := next_interval s |}.

Definition set_pending (f : gmap string nat → gmap string nat) (s : relay) : relay :=
  {| tunnels := tunnels s; pendingResponses := f (pendingResponses s);
     timers := timers s; sinks := sinks s; collecting := collecting s;
     conns := conns s; intervals := intervals s; next_req := next_req s;
     next_conn := next_conn s; next_interval := next_interval s |}.

Definition set_timers (f : gmap nat timer → gmap nat timer) (s : relay) : relay :=
  {| tunnels := tunnels s; pendingResponses := pendingResponses s;
     timers := f (timers s); sinks := sinks s; collecting := collecting s;
     conns := conns s; intervals := intervals s; next_req := next_req s;
     next_conn := next_conn s; next_interval := next_interval s |}.

Definition set_sinks (f : gmap nat (list response) → gmap nat (list response)) (s : relay) : relay :=
  {| tunnels := tunnels s; pendingResponses := pendingResponses s;
     timers := timers s; sinks := f (sinks s); collecting := collecting s;
     conns := conns s; intervals := intervals s; next_req := next_req s;
     next_conn := next_conn s; next_interval := next_interval s |}.

Definition set_collecting (f : gmap nat inflight → gmap nat inflight) (s : relay) : relay :=
  {| tunnels := tunnels s; pendingResponses := pendingResponses s;
     timers := timers s; sinks := sinks s; collecting := f (collecting s);
     conns := conns s; intervals := intervals s; next_req := next_req s;
     next_conn := next_conn s; next_interval := next_interval s |}.

Definition set_conns (f : gmap nat connection → gmap nat connection) (s : relay) : relay :=
  {| tunnels := tunnels s; pendingResponses := pendingResponses s;
     timers := timers s; sinks := sinks s; collecting := collecting s;
     conns := f (conns s); intervals := intervals s; next_req := next_req s;
     next_conn := next_conn s; next_interval := next_interval s |}.

Definition set_intervals (f : gmap nat nat → gmap nat nat) (s : relay) : relay :=
  {| tunnels := tunnels s; pendingResponses := pendingResponses s;
     timers := timers s; sinks := sinks s; collecting := collecting s;
     conns := conns s; intervals := f (intervals s); next_req := next_req s;
     next_conn := next_conn s; next_interval := next_interval s |}.

(** ** Primitive effects *)

Definition sink_log (s : relay) (h : nat) : list response :=
  default [] (sinks s !! h).

(** [res.headersSent] *)
Definition headersSent (s : relay) (h : nat) : bool :=
  match sink_log s h with [] => false | _ => true end.

(** [res.writeHead(..); res.end(..)] *)
Definition write (h : nat) (r : response) (s : relay) : relay :=
  set_sinks (λ sk, <[h := (sink_log s h ++ [r])%list]> sk) s.

Definition is_open (s : relay) (c : nat) : bool :=
  match conns s !! c with
  | Some k => bool_decide (readyState k = OPEN)
  | None => false
  end.

Definition push_outbox (m : json) (k : connection) : connection :=
  {| remoteAddress := remoteAddress k; readyState := readyState k;
     subdomain := subdomain k; pingInterval := pingInterval k;
     outbox := (outbox k ++ [m])%list |}.

Definition set_readyState (r : ready_state) (k : connection) : connection :=
  {| remoteAddress := remoteAddress k; readyState := r;
     subdomain := subdomain k; pingInterval := pingInterval k;
     outbox := outbox k |}.

(** [ws.send(JSON.stringify(m))]: the message is queued on an open
    socket; on a socket that is closing or closed it is discarded. *)
Definition send (c : nat) (m : json) (s : relay) : relay :=
  if is_open s c then set_conns (alter (push_outbox m) c) s else s.

(** [ws.close()]: an open socket starts its closing handshake; the
    'close' event is delivered later. *)
Definition ws_close (c : nat) (s : relay) : relay :=
  set_conns (alter (λ k, match readyState k with
                         | CONNECTING | OPEN => set_readyState CLOSING k
                         | _ => k
                         end) c) s.

(** ** The WebSocket handlers *)

Definition ready_msg (url sub : string) : json :=
  JObj [("type", JStr "ready"); ("url", JStr url); ("subdomain", JStr sub)].

Definition tunnel_url (cfg : config) (sub : string) : string :=
  "http://" +:+ sub +:+ "." +:+ BASE_DOMAIN cfg +:+ ":" +:+ HTTP_PORT cfg.

Definition handleInit (cfg : config) (c : nat) (msg : json) (r : random6) (s : relay) : relay :=
  let sub := generateSubdomain r in
  let url := tunnel_url cfg sub in
  let s := set_tunnels
             (λ t, <[sub := {| ws := c; localPort := or_else (prop msg "localPort") (JNum 3000) |}]> t) s in
  let s := send c (ready_msg url sub) s in
  let i := next_interval s in
  let s := set_intervals (λ iv, <[i := c]> iv) s in
  let s := set_conns (alter (λ k,
             {| remoteAddress := remoteAddress k; readyState := readyState k;
                subdomain := Some sub; pingInterval := Some i;
                outbox := outbox k |}) c) s in
  {| tunnels := tunnels s; pendingResponses := pendingResponses s;
     timers := timers s; sinks := sinks s; collecting := collecting s;
     conns := conns s; intervals := intervals s; next_req := next_req s;
     next_conn := next_conn s; next_interval := S i |}.

(** [pendingResponses.get(id)] for an arbitrary value [id]: the keys of
    the map are strings, so only a string can be found. *)
Definition pending_get (s : relay) (id : jsval) : option (string * nat) :=
  match id with
  | Some (JStr k) => (λ h, (k, h)) <$> pendingResponses s !! k
  | _ => None
  end.

(** The arguments [handleResponse] gives to [res.writeHead] and
    [res.end]: the fields of the [response] message as they are. *)
Definition relayed (msg : json) : response :=
  {| status := prop msg "status"; headers := prop msg "headers";
     body := Chunk (prop msg "body") |}.

(** What Node does with [res.writeHead(status, headers); res.end(body)]
    when the arguments come from a message: it completes the response, or
    one of the two calls throws (a status outside 100..999, an invalid
    header, a body that is not a string) and no response is completed.
    The check is Node's, not the relay's. A sink whose write threw is not
    read again by the relay: its timer is cleared and its entry deleted
    before the write. *)
Inductive sink_result : Type :=
| Completed
| Refused.

(** A handler returns or throws, in both cases after the effects it had
    until then. *)
Inductive effect : Type :=
| Returned (s : relay)
| Raised (s : relay).

(** The timer is cleared and the entry deleted before the response is
    written, so they are gone also when the write throws. *)
Definition handleResponse (msg : json) (w : sink_result) (s : relay) : effect :=
  match pending_get s (prop msg "id") with
  | None => Returned s
  | Some (k, h) =>
      let s := set_timers (delete h) s in
      let s := set_pending (delete k) s in
      match w with
      | Completed => Returned (write h (relayed msg) s)
      | Refused => Raised s
      end
  end.

(** [ws.on('message')]: whatever the body of the [try] throws is caught
    and answered with [ws.close()]. *)
Definition on_message (cfg : config) (c : nat) (data : frame) (r : random6)
    (w : sink_result) (s : relay) : relay :=
  match data with
  | Malformed => ws_close c s
  | Parsed msg =>
      match get_prop msg "type" with
      | Thrown => ws_close c s
      | Normal (Some (JStr ty)) =>
          if String.eqb ty "init" then handleInit cfg c msg r s
          else if String.eqb ty "response" then
            match handleResponse msg w s with
            | Returned s' => s'
            | Raised s' => ws_close c s'
            end
          else s
      | Normal _ => s
      end
  end.

Definition disconnected : response := plain 502 "Tunnel disconnected".

(** The loop of the 'close' handler over [pendingResponses.entries()]. *)
Definition fail_entry (sub : string) (e : string * nat) (s : relay) : relay :=
  if startsWith e.1 sub
  then set_pending (delete e.1) (write e.2 disconnected s)
  else s.

Definition fail_pending (sub : string) (s : relay) : relay :=
  foldr (fail_entry sub) s (map_to_list (pendingResponses s)).

(** [ws.on('close')] *)
Definition on_close (c : nat) (s : relay) : relay :=
  match conns s !! c with
  | None => s
  | Some k =>
      let s := set_conns (alter (set_readyState CLOSED) c) s in
      let s :=
        match subdomain k with
        | Some sub =>
            if String.eqb sub "" then s
            else fail_pending sub (set_tunnels (delete sub) s)
        | None => s
        end in
      match pingInterval k with
      | Some i => set_intervals (delete i) s
      | None => s
      end
  end.

(** The keepalive callback of [setInterval]. *)
Definition ping_tick (i : nat) (s : relay) : relay :=
  match intervals s !! i with
  | Some c => send c (JObj [("type", JStr "ping")]) s
  | None => s
  end.

(** ** The public HTTP handler *)

Definition nl : string := String (ascii_of_nat 10) EmptyString.

(** [host.split('.')[0].split(':')[0]] *)
Definition extract_subdomain (host : string) : string :=
  before ":" (before "." host).

(** [req.headers.host || ''] *)
Definition host_of (req : request) : string :=
  match assoc "host" (req_headers req) with
  | Some h => h
  | None => ""
  end.

Definition health (s : relay) : response :=
  {| status := Some (JNum 200);
     headers := Some (JObj [("Content-Type", JStr "application/json")]);
     body := Stringified (JObj
       [("status", JStr "ok");
        ("active_tunnels", JNum (Z.of_nat (size (tunnels s))));
        ("pending_requests", JNum (Z.of_nat (size (pendingResponses s))))]) |}.

Definition not_found (sub : string) (s : relay) : response :=
  plain 404 ("Tunnel not found: " +:+ sub +:+ nl +:+ nl +:+
             "Active tunnels: " +:+ show_nat (size (tunnels s))).

Definition unavailable : response := plain 503 "Tunnel unavailable".
Definition gateway_timeout : response := plain 504 "Gateway Timeout".

(** The request id built by [forwardRequest] from the socket's remote
    address, [Date.now()] and the rendering of [Math.random()]. *)
Definition request_id (addr : string) (now : N) (rnd : string) : string :=
  addr +:+ "-" +:+ show_N now +:+ "-" +:+ rnd.

(** [forwardRequest] up to the installation of the body listeners. *)
Definition forwardRequest (t : tunnel) (req : request) (h : nat)
    (now : N) (rnd : string) (s : relay) : relay :=
  match conns s !! ws t with
  | Some k =>
      if bool_decide (readyState k = OPEN)
      then set_collecting
             (λ m, <[h := {| in_ws := ws t;
                             in_id := request_id (remoteAddress k) now rnd;
                             in_req := req; in_body := "" |}]> m) s
      else write h unavailable s
  | None => write h unavailable s
  end.

Definition alloc_req (s : relay) : relay :=
  {| tunnels := tunnels s; pendingResponses := pendingResponses s;
     timers := timers s; sinks := sinks s; collecting := collecting s;
     conns := conns s; intervals := intervals s; next_req := S (next_req s);
     next_conn := next_conn s; next_interval := next_interval s |}.

(** The callback of [http.createServer]; the new [res] is [next_req s]. *)
Definition on_request (req : request) (now : N) (rnd : string) (s : relay) : relay :=
  let h := next_req s in
  let s := alloc_req s in
  let sub := extract_subdomain (host_of req) in
  if String.eqb (req_url req) "/_health" then write h (health s) s
  else
    match tunnels s !! sub with
    | None => write h (not_found sub s) s
    | Some t => forwardRequest t req h now rnd s
    end.

(** [req.on('data')] *)
Definition on_data (h : nat) (chunk : string) (s : relay) : relay :=
  set_collecting (alter (λ f,
    {| in_ws := in_ws f; in_id := in_id f; in_req := in_req f;
       in_body := in_body f +:+ chunk |}) h) s.

Definition request_msg (f : inflight) : json :=
  JObj ([("type", JStr "request");
         ("id", JStr (in_id f));
         ("method", JStr (req_method (in_req f)));
         ("path", JStr (req_url (in_req f)));
         ("headers", JObj (prod_map id JStr <$> req_headers (in_req f)))]
        ++ (if String.eqb (in_body f) "" then [] else [("body", JStr (in_body f))]))%list.

(** [req.on('end')]: send the request, arm the timer, store the entry. *)
Definition on_end (h : nat) (s : relay) : relay :=
  match collecting s !! h with
  | None => s
  | Some f =>
      let s := send (in_ws f) (request_msg f) s in
      let s := set_timers (λ t, <[h := {| timer_id := in_id f; timer_delay := REQUEST_TIMEOUT |}]> t) s in
      let s := set_pending (λ p, <[in_id f := h]> p) s in
      set_collecting (delete h) s
  end.

(** The callback of the [setTimeout] armed by [on_end]. *)
Definition on_timeout (h : nat) (s : relay) : relay :=
  match timers s !! h with
  | None => s
  | Some t =>
      let s := set_timers (delete h) s in
      let s := set_pending (delete (timer_id t)) s in
      if headersSent s h then s else write h gateway_timeout s
  end.

(** [wss.on('connection')] *)
Definition on_connection (addr : string) (s : relay) : relay :=
  let c := next_conn s in
  let s := set_conns (λ m, <[c := {| remoteAddress := addr; readyState := OPEN;
                                     subdomain := None; pingInterval := None;
                                     outbox := [] |}]> m) s in
  {| tunnels := tunnels s; pendingResponses := pendingResponses s;
     timers := timers s; sinks := sinks s; collecting := collecting s;
     conns := conns s; intervals := intervals s; next_req := next_req s;
     next_conn := S c; next_interval := next_interval s |}.

(** ** The event loop *)

Inductive event : Type :=
| WsConnection (addr : string)
| WsMessage (c : nat) (data : frame) (r : random6) (w : sink_result)
| WsClose (c : nat)
| WsError (c : nat)
| PingTick (i : nat)
| HttpRequest (req : request) (now : N) (rnd : string)
| HttpData (h : nat) (chunk : string)
| HttpEnd (h : nat)
| TimerFire (h : nat).

(** Events of a socket are delivered only while it is known and not yet
    closed; the other callbacks guard themselves. *)
Definition live (s : relay) (c : nat) : bool :=
  match conns s !! c with
  | Some k => negb (bool_decide (readyState k = CLOSED))
  | None => false
  end.

Definition step (cfg : config) (s : relay) (e : event) : relay :=
  match e with
  | WsConnection addr => on_connection addr s
  | WsMessage c data r w => if live s c then on_message cfg c data r w s else s
  | WsClose c => if live s c then on_close c s else s
  | WsError c => s                      (* ws.on('error') only logs *)
  | PingTick i => ping_tick i s
  | HttpRequest req now rnd => on_request req now rnd s
  | HttpData h chunk => on_data h chunk s
  | HttpEnd h => on_end h s
  | TimerFire h => on_timeout h s
  end.

Definition run (cfg : config) (evs : list event) (s : relay) : relay :=
  foldl (step cfg) s evs.

Definition reachable (cfg : config) (s : relay) : Prop :=
  ∃ evs, s = run cfg evs initial.

(** ** Invariant of the request tables

    [inv_once]: no [res] is completed twice.
    [inv_fresh]: names not yet allocated are unused.
    [inv_pending]: an entry of [pendingResponses] belongs to a request not
    yet answered whose timer is armed and captured the entry's own key.
    [inv_collecting]: a request still reading its body has neither an
    answer nor a timer.
    [inv_keys]: registered identifiers are twelve characters long. *)
Record inv (s : relay) : Prop := {
  inv_once : ∀ h, (length (sink_log s h) ≤ 1)%nat;
  inv_fresh : ∀ h, (next_req s ≤ h)%nat →
    sinks s !! h = None ∧ timers s !! h = None ∧ collecting s !! h = None;
  inv_pending : ∀ k h, pendingResponses s !! k = Some h →
    sink_log s h = [] ∧ ∃ t, timers s !! h = Some t ∧ timer_id t = k;
  inv_collecting : ∀ h f, collecting s !! h = Some f →
    sink_log s h = [] ∧ timers s !! h = None;
  inv_keys : ∀ k t, tunnels s !! k = Some t → String.length k = 12
}.

(** Handlers that touch only sockets, intervals and the registry leave
    the request tables as they are. *)
Definition same_requests (s s' : relay) : Prop :=
  pendingResponses s' = pendingResponses s ∧ timers s' = timers s ∧
  sinks s' = sinks s ∧ collecting s' = collecting s ∧ next_req s' = next_req s.

(** Nothing was sent to a client and nothing was registered. *)
Definition not_forwarded (s s' : relay) : Prop :=
  conns s' = conns s ∧ pendingResponses s' = pendingResponses s
  ∧ timers s' = timers s ∧ collecting s' = collecting s.

(** Every request that has no answer yet is still reading its body or
    has its timer armed: it will get one. *)
Definition answered (s : relay) : Prop :=
  ∀ h, (h < next_req s)%nat → sink_log s h = [] →
    is_Some (timers s !! h) ∨ is_Some (collecting s !! h).

(** [msg.type === 'response'] *)
Definition is_response (msg : json) : bool :=
  match get_prop msg "type" with
  | Normal (Some (JStr ty)) => String.eqb ty "response"
  | _ => false
  end.

(** The messages on which [handleResponse] throws: a [response] whose id
    is in the table and whose status, headers or body Node refuses. *)
Definition refused (s : relay) (msg : json) (w : sink_result) : bool :=
  match w with
  | Completed => false
  | Refused => is_response msg && bool_decide (is_Some (pending_get s (prop msg "id")))
  end.

(** Frames on which the body of the [try] throws: [JSON.parse] throws,
    [msg.type] throws on [null], or [handleResponse] throws. *)
Definition throws (s : relay) (data : frame) (w : sink_result) : bool :=
  match data with
  | Malformed => true
  | Parsed JNull => true
  | Parsed msg => refused s msg w
  end.

(** Events on which [handleResponse] does not throw, and runs made of
    them. *)
Definition accepted (s : relay) (e : event) : bool :=
  match e with
  | WsMessage c (Parsed msg) r w => negb (live s c && refused s msg w)
  | _ => true
  end.

Fixpoint accepted_run (cfg : config) (evs : list event) (s : relay) : bool :=
  match evs with
  | [] => true
  | e :: rest => accepted s e && accepted_run cfg rest (step cfg s e)
  end.

Definition reachable_accepted (cfg : config) (s : relay) : Prop :=
  ∃ evs, accepted_run cfg evs initial = true ∧ s = run cfg evs initial.

Definition is_init (data : frame) : bool :=
  match data with
  | Parsed (JObj props) =>
      match assoc "type" props with
      | Some (JStr ty) => String.eqb ty "init"
      | _ => false
      end
  | _ => false
  end.

Definition is_hex (c : ascii) : bool :=
  let n := N_of_ascii c in
  ((48 <=? n)%N && (n <=? 57)%N) || ((97 <=? n)%N && (n <=? 102)%N).

Fixpoint all_hex (s : string) : bool :=
  match s with
  | EmptyString => true
  | String c rest => is_hex c && all_hex rest
  end.

(** The first [n] characters exist and are hexadecimal digits. *)
Fixpoint hex_prefix (n : nat) (s : string) : bool :=
  match n, s with
  | O, _ => true
  | S n', String c rest => is_hex c && hex_prefix n' rest
  | S _, EmptyString => false
  end.

(** ** Concrete runs used below *)

Definition bytes_A : random6 := (xa1, xb2, xc3, xd4, xe5, xf6).

Definition init_frame : frame :=
  Parsed (JObj [("type", JStr "init"); ("localPort", JNum 3000)]).

Definition pong_frame : frame := Parsed (JObj [("type", JStr "pong")]).

Definition get_root : request :=
  {| req_method := "GET"; req_url := "/";
     req_headers := [("host", "a1b2c3d4e5f6.tunnel.localhost:8081")] |}.

Definition unknown_host : request :=
  {| req_method := "GET"; req_url := "/";
     req_headers := [("host", "zzzzzz.tunnel.localhost:8081")] |}.

Definition health_probe : request :=
  {| req_method := "GET"; req_url := "/_health";
     req_headers := [("host", "zzzzzz.tunnel.localhost:8081")] |}.

Definition hostless : request :=
  {| req_method := "GET"; req_url := "/"; req_headers := [("accept", "*/*")] |}.

Definition hostless_health : request :=
  {| req_method := "GET"; req_url := "/_health"; req_headers := [] |}.

Definition id_A : string := "127.0.0.1-1700000000000-0.5".

Definition response_A : json :=
  JObj [("type", JStr "response"); ("id", JStr id_A); ("status", JNum 200);
        ("headers", JObj [("content-type", JStr "text/plain")]);
        ("body", JStr "hello")].

(** A client at 127.0.0.1 registered, a public GET / was forwarded to it
    and is waiting for the answer. *)
Definition forwarded_trace : list event :=
  [WsConnection "127.0.0.1"; WsMessage 0 init_frame bytes_A Completed;
   HttpRequest get_root 1700000000000 "0.5"; HttpEnd 0].
Definition forwarded_state : relay := run default_config forwarded_trace initial.

(** One tunnel registered, a second socket accepted and not yet
    initialised. *)
Definition collision_trace : list event :=
  [WsConnection "127.0.0.1"; WsMessage 0 init_frame bytes_A Completed;
   WsConnection "127.0.0.2"].
Definition collision_state : relay := run default_config collision_trace initial.

(** A socket accepted, no message received yet. *)
Definition awaiting_state : relay := run default_config [WsConnection "127.0.0.1"] initial.

(** A registered tunnel whose socket is closing after an unreadable frame. *)
Definition closing_trace : list event :=
  [WsConnection "127.0.0.1"; WsMessage 0 init_frame bytes_A Completed; WsMessage 0 Malformed bytes_A Completed].
Definition closing_state : relay := run default_config closing_trace initial.

(** ** Definitions for the further properties *)

(** [s.includes(c)] for one character. *)
Fixpoint has_char (c : ascii) (s : string) : bool :=
  match s with
  | EmptyString => false
  | String a rest => Ascii.eqb a c || has_char c rest
  end.

(** The value of a hexadecimal digit. *)
Definition hex_val (c : ascii) : N :=
  let n := N_of_ascii c in
  if (n <=? 57)%N then n - 48 else n - 87.

(** The host part of the URL sent in [ready]. *)
Definition announced_host (cfg : config) (sub : string) : string :=
  sub +:+ "." +:+ BASE_DOMAIN cfg +:+ ":" +:+ HTTP_PORT cfg.

(** What has been sent on a socket. *)
Definition outbox_of (s : relay) (c : nat) : list json :=
  default [] (outbox <$> conns s !! c).

(** The 'data' events of one request, a chunk each. *)
Definition data_events (h : nat) (chunks : list string) : list event :=
  HttpData h <$> chunks.

(** [body += chunk.toString()] over the chunks, in order. *)
Fixpoint concat_chunks (chunks : list string) : string :=
  match chunks with
  | [] => ""
  | c :: rest => c +:+ concat_chunks rest
  end.

(** The messages the relay puts on the wire. *)
Definition relay_msg (m : json) : bool :=
  match prop m "type" with
  | Some (JStr ty) => String.eqb ty "ready" || String.eqb ty "request" || String.eqb ty "ping"
  | _ => false
  end.

(** The request being read, with [body] replaced. *)
Definition with_body (f : inflight) (b : string) : inflight :=
  {| in_ws := in_ws f; in_id := in_id f; in_req := in_req f; in_body := b |}.

(** A public GET / routed to the tunnel, its body not yet read. *)
Definition collecting_state : relay :=
  run default_config [WsConnection "127.0.0.1"; WsMessage 0 init_frame bytes_A Completed;
                      HttpRequest get_root 1700000000000 "0.5"] initial.

(** How one socket's record may change in one step: it does not become
    open, and its outbox is kept or, the socket being open, one protocol
    message is appended. *)
Definition outbox_step (k k' : connection) : Prop :=
  (readyState k' = OPEN → readyState k = OPEN)
  ∧ (outbox k' = outbox k
     ∨ (readyState k = OPEN
        ∧ ∃ m, relay_msg m = true ∧ outbox k' = (outbox k ++ [m])%list)).

(** Every socket of [s'] is new with nothing sent, or a socket of [s]
    changed as above. *)
Definition conns_step (s s' : relay) : Prop :=
  ∀ c k', conns s' !! c = Some k' →
    match conns s !! c with
    | Some k => outbox_step k k'
    | None => outbox k' = []
    end.

(** Invariant of the registry: sockets are named below the counter,
    identifiers are twelve hexadecimal digits, and the socket of a tunnel
    is one the relay accepted. *)
Record registry_ok (s : relay) : Prop := {
  reg_conns : ∀ c k, conns s !! c = Some k → (c < next_conn s)%nat;
  reg_keys : ∀ key t, tunnels s !! key = Some t →
    String.length key = 12 ∧ all_hex key = true;
  reg_ws : ∀ key t, tunnels s !! key = Some t → is_Some (conns s !! ws t)
}.

(** ** Further concrete runs *)

Definition bytes_B : random6 := (x00, x11, x22, x33, x44, x55).

Definition init_msg : json := JObj [("type", JStr "init"); ("localPort", JNum 3000)].

(** One socket registered under a1b2c3d4e5f6. *)
Definition registered_trace : list event :=
  [WsConnection "127.0.0.1"; WsMessage 0 init_frame bytes_A Completed].
Definition registered_state : relay := run default_config registered_trace initial.

(** Two public requests that were given the same id; the first is
    pending, the second has not ended yet. *)
Definition twin_trace : list event :=
  [WsConnection "127.0.0.1"; WsMessage 0 init_frame bytes_A Completed;
   HttpRequest get_root 1700000000000 "0.5"; HttpRequest get_root 1700000000000 "0.5";
   HttpEnd 0].
Definition twin_state : relay := run default_config twin_trace initial.

(** The second of the two requests reached 'end' as well. *)
Definition overwritten_state : relay := step default_config twin_state (HttpEnd 1).

(** A second socket was accepted while the request waits; it has not sent
    [init]. *)
Definition second_socket_state : relay :=
  step default_config forwarded_state (WsConnection "127.0.0.2").

(** A [response] for the forwarded request that carries no status:
    [res.writeHead(undefined, undefined)] throws. *)
Definition response_no_status : json :=
  JObj [("type", JStr "response"); ("id", JStr id_A); ("body", JStr "hello")].

(** A request nothing will answer: allocated, not reading its body, its
    timer not armed, and no entry of the table leading to it. *)
Definition abandoned (s : relay) (h : nat) : Prop :=
  (h < next_req s)%nat ∧ timers s !! h = None ∧ collecting s !! h = None
  ∧ ∀ k, pendingResponses s !! k ≠ Some h.

End Relay.

Module Client.

Definition MAX_RECONNECT_DELAY : Z := 30000.

(** [process.argv[2] || 3000] *)
Definition localPort (argv2 : option string) : json :=
  or_else (JStr <$> argv2) (JNum 3000).

(** [`${localPort}`] *)
Definition port_text (argv2 : option string) : string :=
  match localPort argv2 with
  | JStr s => s
  | _ => "3000"
  end.

(** The request handed to [http.request] and the body written to it. *)
Record local_request : Type := {
  hostname : string;
  port : json;
  path : jsval;
  method : jsval;
  headers : list (string * json);
  written : jsval
}.

(** What the local service answered, or the error of the call. *)
Record local_response : Type := {
  statusCode : Z;
  res_headers : list (string * json);
  responseBody : string
}.

Inductive outcome : Type :=
| Resolved (r : local_response)
| Rejected (message : string).

Record client : Type := {
  reconnectAttempts : nat;
  sockets : nat;                    (* how many times [connect] ran *)
  sent : list json;                 (* arguments of [ws.send], oldest first *)
  scheduled : list Z;               (* delays given to [setTimeout(connect, _)] *)
  forwarded : list local_request    (* calls made to the local service *)
}.

Definition initial : client :=
  {| reconnectAttempts := 0; sockets := 0; sent := []; scheduled := []; forwarded := [] |}.

Definition send (m : json) (s : client) : client :=
  {| reconnectAttempts := reconnectAttempts s; sockets := sockets s;
     sent := (sent s ++ [m])%list; scheduled := scheduled s; forwarded := forwarded s |}.

(** [connect()] up to the registration of the handlers. *)
Definition connect (s : client) : client :=
  {| reconnectAttempts := reconnectAttempts s; sockets := S (sockets s);
     sent := sent s; scheduled := scheduled s; forwarded := forwarded s |}.

(** [ws.on('open')] *)
Definition on_open (argv2 : option string) (s : client) : client :=
  let s := {| reconnectAttempts := 0; sockets := sockets s; sent := sent s;
              scheduled := scheduled s; forwarded := forwarded s |} in
  send (JObj [("type", JStr "init"); ("localPort", localPort argv2)]) s.

(** [Math.min(1000 * Math.pow(2, reconnectAttempts), MAX_RECONNECT_DELAY)].
    The product is exact in double precision up to 2^1023 and infinite
    beyond, where the minimum is the cap as well, so the integer formula
    gives the value computed for every counter. *)
Definition delay_of (attempts : nat) : Z :=
  Z.min (1000 * 2 ^ Z.of_nat attempts) MAX_RECONNECT_DELAY.

Definition reconnect (s : client) : client :=
  let delay := delay_of (reconnectAttempts s) in
  {| reconnectAttempts := S (reconnectAttempts s); sockets := sockets s;
     sent := sent s; scheduled := (scheduled s ++ [delay])%list;
     forwarded := forwarded s |}.

(** [ws.on('close')] *)
Definition on_close (s : client) : client := reconnect s.

(** The [options] of [forwardToLocalhost] and the body it writes. *)
Definition forward_headers (argv2 : option string) (hs : jsval) : list (string * json) :=
  set_prop "x-forwarded-proto" (JStr "https")
    (set_prop "host" (JStr ("localhost:" +:+ port_text argv2)) (spread hs)).

Definition forwardToLocalhost (argv2 : option string) (m p hs b : jsval) : local_request :=
  {| hostname := "localhost";
     port := localPort argv2;
     path := p;
     method := m;
     headers := forward_headers argv2 hs;
     written := if truthy b then b else None |}.

Definition success_msg (id : jsval) (r : local_response) : json :=
  JObj ([("type", JStr "response")] ++ field "id" id ++
        [("status", JNum (statusCode r));
         ("headers", JObj (res_headers r));
         ("body", JStr (responseBody r))])%list.

Definition failure_msg (id : jsval) (message : string) : json :=
  JObj ([("type", JStr "response")] ++ field "id" id ++
        [("status", JNum 502);
         ("headers", JObj [("Content-Type", JStr "text/plain")]);
         ("body", JStr ("Tunnel Error: " +:+ message))])%list.

(** [handleRequest]; [o] is how the awaited local call settled. The call
    and the [ws.send] that follows it are one step, and [ws.send] is
    taken not to throw, so the [catch] branch is entered exactly by a
    rejected call. *)
Definition handleRequest (argv2 : option string) (msg : json) (o : outcome) (s : client) : client :=
  let id := prop msg "id" in
  let call := forwardToLocalhost argv2 (prop msg "method") (prop msg "path")
                (prop msg "headers") (prop msg "body") in
  let s := {| reconnectAttempts := reconnectAttempts s; sockets := sockets s;
              sent := sent s; scheduled := scheduled s;
              forwarded := (forwarded s ++ [call])%list |} in
  match o with
  | Resolved r => send (success_msg id r) s
  | Rejected message => send (failure_msg id message) s
  end.

(** [ws.on('message')]; [o] is the outcome of the local call made should
    the message be a request. The handler has no [try]: a frame that
    does not parse, or [null], ends it before any effect. *)
Definition on_message (argv2 : option string) (data : frame) (o : outcome) (s : client) : client :=
  match data with
  | Malformed => s
  | Parsed msg =>
      match get_prop msg "type" with
      | Normal (Some (JStr ty)) =>
          if String.eqb ty "ready" then s
          else if String.eqb ty "request" then handleRequest argv2 msg o s
          else if String.eqb ty "ping" then send (JObj [("type", JStr "pong")]) s
          else s
      | _ => s
      end
  end.

Inductive event : Type :=
| Connect                 (* the initial call, or a reconnect timer firing *)
| Open
| Message (data : frame) (o : outcome)
| Error                   (* ws.on('error') only logs; 'close' follows *)
| Close.

Definition step (argv2 : option string) (s : client) (e : event) : client :=
  match e with
  | Connect => connect s
  | Open => on_open argv2 s
  | Message data o => on_message argv2 data o s
  | Error => s
  | Close => on_close s
  end.

Definition run (argv2 : option string) (evs : list event) (s : client) : client :=
  foldl (step argv2) s evs.

Definition is_Open (e : event) : bool :=
  match e with Open => true | _ => false end.

(** Number of 'close' events of a trace. *)
Fixpoint closes (evs : list event) : nat :=
  match evs with
  | [] => 0
  | Close :: rest => S (closes rest)
  | _ :: rest => closes rest
  end.

(** ** Concrete runs used below *)

(** The relay accepts the second connection and drops it before [ready]. *)
Definition failing_handshakes : list event := [Connect; Close; Connect; Open; Close].

Definition six_failures : list event :=
  [Connect; Close; Connect; Close; Connect; Close;
   Connect; Close; Connect; Close; Connect; Close].

Definition request_A : json :=
  JObj [("type", JStr "request"); ("id", JStr "127.0.0.1-1700000000000-0.5");
        ("method", JStr "GET"); ("path", JStr "/");
        ("headers", JObj [("host", JStr "a1b2c3d4e5f6.tunnel.localhost:8081");
                          ("accept", JStr "*/*")])].

(** ** Definitions for the further properties *)

(** The type tag of a message, when it is a string. *)
Definition type_of (m : json) : option string :=
  match prop m "type" with
  | Some (JStr ty) => Some ty
  | _ => None
  end.

(** The messages the client puts on the wire. *)
Definition client_msg (m : json) : bool :=
  match type_of m with
  | Some ty => String.eqb ty "init" || String.eqb ty "response" || String.eqb ty "pong"
  | None => false
  end.

(** How many messages the handler of an event sends. *)
Definition sends (e : event) : nat :=
  match e with
  | Open => 1
  | Message (Parsed m) _ =>
      match type_of m with
      | Some ty => if String.eqb ty "request" || String.eqb ty "ping" then 1 else 0
      | None => 0
      end
  | _ => 0
  end.

Fixpoint total_sends (evs : list event) : nat :=
  match evs with
  | [] => 0
  | e :: rest => sends e + total_sends rest
  end.

(** The field names of an object, in order. *)
Definition keys (o : list (string * json)) : list string := o.*1.

End Client.

(** * Relay and client together *)

Module Tunnel.

(** What the public caller is given for each outcome of the local call. *)
Definition delivered (o : Client.outcome) : Relay.response :=
  match o with
  | Client.Resolved res =>
      {| Relay.status := Some (JNum (Client.statusCode res));
         Relay.headers := Some (JObj (Client.res_headers res));
         Relay.body := Relay.Chunk (Some (JStr (Client.responseBody res))) |}
  | Client.Rejected message =>
      {| Relay.status := Some (JNum 502);
         Relay.headers := Some (JObj [("Content-Type", JStr "text/plain")]);
         Relay.body := Relay.Chunk (Some (JStr ("Tunnel Error: " +:+ message))) |}
  end.

(** The local service answers 200 with the body hello. *)
Definition local_hello : Client.local_response :=
  {| Client.statusCode := 200;
     Client.res_headers := [("content-type", JStr "text/plain")];
     Client.responseBody := "hello" |}.

End Tunnel.

(** * Properties *)

(** ** Property lists *)

Lemma assoc_set_prop_eq k v o : assoc k (set_prop k v o) = Some v.
Proof.
  induction o as [|[k' v'] o IH]; simpl.
  - by rewrite String.eqb_refl.
  - destruct (String.eqb k k') eqn:E; simpl.
    + by rewrite String.eqb_refl.
    + by rewrite E.
Qed.

Lemma assoc_set_prop_ne k k' v o : k ≠ k' → assoc k' (set_prop k v o) = assoc k' o.
Proof.
  intros Hne. induction o as [|[k0 v0] o IH]; simpl.
  - destruct (String.eqb_spec k' k); congruence.
  - destruct (String.eqb_spec k k0) as [->|]; simpl.
    + destruct (String.eqb_spec k' k0); congruence.
    + destruct (String.eqb_spec k' k0); congruence.
Qed.

(** ** The relay *)

Module RelaySpec.
Import Relay.

(** *** The handlers on small inputs *)

Example generateSubdomain_bytes_A : generateSubdomain bytes_A = "a1b2c3d4e5f6".
Proof. reflexivity. Qed.

Example extract_subdomain_with_port :
  extract_subdomain "a1b2c3d4e5f6.tunnel.localhost:8081" = "a1b2c3d4e5f6".
Proof. reflexivity. Qed.

Example extract_subdomain_no_dot : extract_subdomain "localhost:8081" = "localhost".
Proof. reflexivity. Qed.

Example extract_subdomain_empty : extract_subdomain "" = "".
Proof. reflexivity. Qed.

Example request_id_A : request_id "127.0.0.1" 1700000000000 "0.5" = id_A.
Proof. reflexivity. Qed.

Example id_A_not_hex : hex_prefix 12 id_A = false.
Proof. reflexivity. Qed.

Example ready_sent_on_init :
  outbox <$> conns (run default_config [WsConnection "127.0.0.1"; WsMessage 0 init_frame bytes_A Completed]
                      initial) !! 0
  = Some [JObj [("type", JStr "ready");
                ("url", JStr "http://a1b2c3d4e5f6.tunnel.localhost:8081");
                ("subdomain", JStr "a1b2c3d4e5f6")]].
Proof. vm_compute; reflexivity. Qed.

Example request_sent_on_end :
  last <$> (outbox <$> conns forwarded_state !! 0)
  = Some (Some (JObj [("type", JStr "request"); ("id", JStr id_A);
                      ("method", JStr "GET"); ("path", JStr "/");
                      ("headers",
                       JObj [("host", JStr "a1b2c3d4e5f6.tunnel.localhost:8081")])])).
Proof. vm_compute; reflexivity. Qed.

(** *** The sinks *)

Lemma sink_log_write_eq h r s : sink_log (write h r s) h = (sink_log s h ++ [r])%list.
Proof. unfold sink_log, write; simpl. by rewrite lookup_insert_eq. Qed.

Lemma sink_log_write_ne h h' r s : h ≠ h' → sink_log (write h r s) h' = sink_log s h'.
Proof. intros. unfold sink_log, write; simpl. by rewrite lookup_insert_ne. Qed.

Lemma sink_log_fresh s h : sinks s !! h = None → sink_log s h = [].
Proof. unfold sink_log. by intros ->. Qed.

Lemma pending_lt s k h : inv s → pendingResponses s !! k = Some h → (h < next_req s)%nat.
Proof.
  intros I Hk. destruct (inv_pending s I k h Hk) as (_ & t & Ht & _).
  destruct (decide (h < next_req s)%nat); [done|].
  destruct (inv_fresh s I h) as (_ & Hn & _); [lia|congruence].
Qed.

Lemma collecting_lt s h f : inv s → collecting s !! h = Some f → (h < next_req s)%nat.
Proof.
  intros I Hk. destruct (decide (h < next_req s)%nat); [done|].
  destruct (inv_fresh s I h) as (_ & _ & Hn); [lia|congruence].
Qed.

Lemma timer_lt s h t : inv s → timers s !! h = Some t → (h < next_req s)%nat.
Proof.
  intros I Hk. destruct (decide (h < next_req s)%nat); [done|].
  destruct (inv_fresh s I h) as (_ & Hn & _); [lia|congruence].
Qed.

Lemma inv_initial : inv initial.
Proof.
  split; simpl; intros; try done.
  unfold sink_log; simpl. rewrite lookup_empty; simpl; lia.
Qed.

Lemma inv_same_requests s s' :
  same_requests s s' →
  (∀ k t, tunnels s' !! k = Some t → String.length k = 12) →
  inv s → inv s'.
Proof.
  intros (Hp & Ht & Hs & Hc & Hn) Hk I.
  assert (Hl : ∀ h, sink_log s' h = sink_log s h) by (intros; unfold sink_log; by rewrite Hs).
  split; [| | | |done].
  - intros h. rewrite Hl. apply I.
  - intros h. rewrite Hn, Hs, Ht, Hc. apply I.
  - intros k h. rewrite Hp, Hl, Ht. apply I.
  - intros h f. rewrite Hc, Hl, Ht. apply I.
Qed.

Lemma send_same c m s : same_requests s (send c m s) ∧ tunnels (send c m s) = tunnels s.
Proof. unfold send. by destruct (is_open s c). Qed.

Lemma ws_close_same c s : same_requests s (ws_close c s) ∧ tunnels (ws_close c s) = tunnels s.
Proof. done. Qed.

Lemma toString_hex_length bs : String.length (toString_hex bs) = 2 * length bs.
Proof. induction bs as [|b bs IH]; simpl; [done|]. rewrite IH. lia. Qed.

Lemma generateSubdomain_length r : String.length (generateSubdomain r) = 12.
Proof. destruct r as [[[[[a b] c] d] e] f]. unfold generateSubdomain. by rewrite toString_hex_length. Qed.

Lemma inv_handleInit cfg c msg r s : inv s → inv (handleInit cfg c msg r s).
Proof.
  intros I. apply (inv_same_requests s); [| |done].
  - unfold handleInit, same_requests; simpl.
    destruct (send_same c (ready_msg (tunnel_url cfg (generateSubdomain r)) (generateSubdomain r))
      (set_tunnels (λ t, <[generateSubdomain r := {| ws := c; localPort := or_else (prop msg "localPort") (JNum 3000) |}]> t) s))
      as ((-> & -> & -> & -> & ->) & _). done.
  - intros k t. unfold handleInit; simpl.
    destruct (send_same c (ready_msg (tunnel_url cfg (generateSubdomain r)) (generateSubdomain r))
      (set_tunnels (λ t, <[generateSubdomain r := {| ws := c; localPort := or_else (prop msg "localPort") (JNum 3000) |}]> t) s))
      as (_ & ->). simpl.
    destruct (decide (generateSubdomain r = k)) as [<-|Hne].
    + intros _. apply generateSubdomain_length.
    + rewrite lookup_insert_ne by done. apply I.
Qed.

(** Completing one request: its log was empty, it gets its only entry. *)
Lemma inv_complete k h r s :
  inv s → pendingResponses s !! k = Some h →
  inv (write h r (set_pending (delete k) (set_timers (delete h) s))).
Proof.
  intros I Hk.
  destruct (inv_pending s I k h Hk) as (Hlog & t & Ht & Hid).
  pose proof (pending_lt s k h I Hk) as Hlt.
  set (s1 := set_pending (delete k) (set_timers (delete h) s)).
  assert (Hl1 : ∀ h', sink_log s1 h' = sink_log s h') by done.
  split.
  - intros h'. destruct (decide (h = h')) as [<-|Hne].
    + rewrite sink_log_write_eq, Hl1, Hlog. simpl; lia.
    + rewrite sink_log_write_ne, Hl1 by done. apply I.
  - intros h' Hge; simpl in *. destruct (inv_fresh s I h' Hge) as (Hs & Htm & Hc).
    assert (h ≠ h') by lia.
    rewrite !lookup_insert_ne, lookup_delete_ne by done. done.
  - intros k' h'; simpl. intros Hk'.
    apply lookup_delete_Some in Hk' as [Hne Hk'].
    destruct (inv_pending s I k' h' Hk') as (Hlog' & t' & Ht' & Hid').
    assert (h ≠ h') by (intros <-; congruence).
    rewrite sink_log_write_ne, Hl1 by done. split; [done|].
    exists t'. by rewrite lookup_delete_ne.
  - intros h' f; simpl. intros Hc.
    destruct (inv_collecting s I h' f Hc) as (Hlog' & Ht').
    assert (h ≠ h') by (intros <-; congruence).
    rewrite sink_log_write_ne, Hl1 by done. split; [done|].
    by rewrite lookup_delete_ne.
  - apply I.
Qed.

(** Dropping one request: its timer and its entry go, its log stays. *)
Lemma inv_drop k h s :
  inv s → pendingResponses s !! k = Some h →
  inv (set_pending (delete k) (set_timers (delete h) s)).
Proof.
  intros I Hk.
  set (s1 := set_pending (delete k) (set_timers (delete h) s)).
  assert (Hl1 : ∀ h', sink_log s1 h' = sink_log s h') by done.
  split.
  - intros h'. rewrite Hl1. apply I.
  - intros h' Hge; simpl in *. destruct (inv_fresh s I h' Hge) as (Hs & Htm & Hc).
    split; [done|]. split; [|done].
    apply lookup_delete_None. by right.
  - intros k' h'; simpl. intros Hk'.
    apply lookup_delete_Some in Hk' as [Hne Hk'].
    destruct (inv_pending s I k' h' Hk') as (Hlog' & t' & Ht' & Hid').
    destruct (inv_pending s I k h Hk) as (_ & t & Ht & Hid).
    assert (h ≠ h') by (intros <-; congruence).
    rewrite Hl1. split; [done|].
    exists t'. by rewrite lookup_delete_ne.
  - intros h' f; simpl. intros Hc.
    destruct (inv_collecting s I h' f Hc) as (Hlog' & Ht').
    rewrite Hl1. split; [done|].
    apply lookup_delete_None. by right.
  - apply I.
Qed.

Lemma pending_get_Some s id k h :
  pending_get s id = Some (k, h) → id = Some (JStr k) ∧ pendingResponses s !! k = Some h.
Proof.
  unfold pending_get. destruct id as [[]|]; try done.
  destruct (pendingResponses s !! s0) eqn:E; simpl; [|done].
  intros [= <- <-]. done.
Qed.

Lemma inv_handleResponse msg w s :
  inv s →
  match handleResponse msg w s with Returned s' | Raised s' => inv s' end.
Proof.
  intros I. unfold handleResponse.
  destruct (pending_get s (prop msg "id")) as [[k h]|] eqn:E; [|done].
  apply pending_get_Some in E as [_ Hk].
  destruct w; [by apply inv_complete|by apply inv_drop].
Qed.

Lemma inv_ws_close c s : inv s → inv (ws_close c s).
Proof. intros I. apply (inv_same_requests s); [done| |done]. apply I. Qed.

Lemma inv_send c m s : inv s → inv (send c m s).
Proof.
  intros I. destruct (send_same c m s) as [Hs Ht].
  apply (inv_same_requests s); [done| |done]. rewrite Ht. apply I.
Qed.

Lemma inv_on_message cfg c data r w s : inv s → inv (on_message cfg c data r w s).
Proof.
  intros I. unfold on_message. destruct data as [|msg]; [by apply inv_ws_close|].
  destruct (get_prop msg "type") as [[[]|]|]; try done; [|by apply inv_ws_close].
  destruct (String.eqb _ "init"); [by apply inv_handleInit|].
  destruct (String.eqb _ "response"); [|done].
  pose proof (inv_handleResponse msg w s I) as Hr.
  destruct (handleResponse msg w s); [done|by apply inv_ws_close].
Qed.

(** Failing one entry that is still in the table. *)
Lemma inv_fail k h r s :
  inv s → pendingResponses s !! k = Some h →
  inv (set_pending (delete k) (write h r s)).
Proof.
  intros I Hk.
  destruct (inv_pending s I k h Hk) as (Hlog & t & Ht & Hid).
  pose proof (pending_lt s k h I Hk) as Hlt.
  assert (Hl1 : ∀ h', sink_log (set_pending (delete k) (write h r s)) h' = sink_log (write h r s) h') by done.
  split.
  - intros h'. rewrite Hl1. destruct (decide (h = h')) as [<-|Hne].
    + rewrite sink_log_write_eq, Hlog. simpl; lia.
    + rewrite sink_log_write_ne by done. apply I.
  - intros h' Hge; simpl in *. destruct (inv_fresh s I h' Hge) as (Hs & Htm & Hc).
    assert (h ≠ h') by lia.
    rewrite !lookup_insert_ne by done. done.
  - intros k' h'; simpl. intros Hk'.
    apply lookup_delete_Some in Hk' as [Hne Hk'].
    destruct (inv_pending s I k' h' Hk') as (Hlog' & t' & Ht' & Hid').
    assert (h ≠ h') by (intros <-; congruence).
    rewrite Hl1, sink_log_write_ne by done. split; [done|].
    by exists t'.
  - intros h' f; simpl. intros Hc.
    destruct (inv_collecting s I h' f Hc) as (Hlog' & Ht').
    assert (h ≠ h') by (intros <-; congruence).
    rewrite Hl1, sink_log_write_ne by done. done.
  - apply I.
Qed.

Lemma fail_entry_pending sub e s k :
  k ≠ e.1 → pendingResponses (fail_entry sub e s) !! k = pendingResponses s !! k.
Proof.
  intros Hne. unfold fail_entry. destruct (startsWith e.1 sub); [|done].
  simpl. by rewrite lookup_delete_ne.
Qed.

Lemma inv_fail_entries sub s (l : list (string * nat)) :
  NoDup l.*1 →
  (∀ k h, (k, h) ∈ l → pendingResponses s !! k = Some h) →
  inv s →
  inv (foldr (fail_entry sub) s l)
  ∧ ∀ k, k ∉ l.*1 → pendingResponses (foldr (fail_entry sub) s l) !! k = pendingResponses s !! k.
Proof.
  induction l as [|[k0 h0] l IH]; intros Hnd Hin I; simpl; [done|].
  apply NoDup_cons in Hnd as [Hk0 Hnd].
  destruct IH as [I' Hsame]; [done| |done|].
  { intros k h Hkh. apply Hin. by right. }
  split.
  - unfold fail_entry at 1; simpl. destruct (startsWith k0 sub); [|done].
    apply inv_fail; [done|]. rewrite Hsame by done. apply Hin. by left.
  - intros k Hk. apply not_elem_of_cons in Hk as [Hne Hk].
    rewrite fail_entry_pending by done. by apply Hsame.
Qed.

Lemma inv_fail_pending sub s : inv s → inv (fail_pending sub s).
Proof.
  intros I. unfold fail_pending.
  apply inv_fail_entries; [| |done].
  - apply NoDup_fst_map_to_list.
  - intros k h. apply elem_of_map_to_list.
Qed.

Lemma inv_on_close c s : inv s → inv (on_close c s).
Proof.
  intros I. unfold on_close. destruct (conns s !! c) as [k|]; [|done].
  set (s1 := set_conns _ s).
  assert (I1 : inv s1) by (apply (inv_same_requests s); [done|apply I|done]).
  assert (I2 : inv (match subdomain k with
     | Some sub => if String.eqb sub "" then s1 else fail_pending sub (set_tunnels (delete sub) s1)
     | None => s1 end)).
  { destruct (subdomain k) as [sub|]; [|done].
    destruct (String.eqb sub ""); [done|].
    apply inv_fail_pending. apply (inv_same_requests s1); [done| |done].
    intros k' t; simpl. intros Hk'. apply lookup_delete_Some in Hk' as [_ Hk'].
    by apply (inv_keys s I k' t). }
  destruct (pingInterval k); [|done].
  eapply inv_same_requests; [| |exact I2]; [done|apply I2].
Qed.

Lemma inv_ping_tick i s : inv s → inv (ping_tick i s).
Proof. intros I. unfold ping_tick. destruct (intervals s !! i); [|done]. by apply inv_send. Qed.

Lemma inv_alloc_write r s :
  inv s → inv (write (next_req s) r (alloc_req s)).
Proof.
  intros I. set (h := next_req s).
  destruct (inv_fresh s I h) as (Hs & Ht & Hc); [done|].
  assert (Hl1 : ∀ h', sink_log (alloc_req s) h' = sink_log s h') by done.
  assert (Hlog : sink_log s h = []) by by apply sink_log_fresh.
  split.
  - intros h'. destruct (decide (h = h')) as [<-|Hne].
    + rewrite sink_log_write_eq, Hl1, Hlog. simpl; lia.
    + rewrite sink_log_write_ne, Hl1 by done. apply I.
  - intros h' Hge; simpl in *. destruct (inv_fresh s I h') as (? & ? & ?); [lia|].
    rewrite lookup_insert_ne by (subst h; lia). done.
  - intros k' h'; simpl. intros Hk'.
    destruct (inv_pending s I k' h' Hk') as (Hlog' & t' & Ht' & Hid').
    assert (h ≠ h') by (intros <-; congruence).
    rewrite sink_log_write_ne, Hl1 by done. split; [done|]. by exists t'.
  - intros h' f; simpl. intros Hc'.
    destruct (inv_collecting s I h' f Hc') as (Hlog' & Ht').
    assert (h ≠ h') by (intros <-; congruence).
    rewrite sink_log_write_ne, Hl1 by done. done.
  - apply I.
Qed.

Lemma inv_alloc_collect f s :
  inv s → inv (set_collecting (λ m, <[next_req s := f]> m) (alloc_req s)).
Proof.
  intros I. set (h := next_req s).
  destruct (inv_fresh s I h) as (Hs & Ht & Hc); [done|].
  assert (Hl1 : ∀ h', sink_log (set_collecting (λ m, <[h := f]> m) (alloc_req s)) h' = sink_log s h') by done.
  assert (Hlog : sink_log s h = []) by by apply sink_log_fresh.
  split.
  - intros h'. rewrite Hl1. apply I.
  - intros h' Hge; simpl in *. destruct (inv_fresh s I h') as (? & ? & ?); [lia|].
    rewrite lookup_insert_ne by (subst h; lia). done.
  - intros k' h'; simpl. rewrite Hl1. apply I.
  - intros h' f'; simpl. rewrite Hl1. destruct (decide (h = h')) as [<-|Hne].
    + done.
    + rewrite lookup_insert_ne by done. apply I.
  - apply I.
Qed.

Lemma inv_on_request req now rnd s : inv s → inv (on_request req now rnd s).
Proof.
  intros I. unfold on_request.
  destruct (String.eqb (req_url req) "/_health"); [by apply inv_alloc_write|].
  change (tunnels (alloc_req s)) with (tunnels s).
  destruct (tunnels s !! _) as [t|]; [|by apply inv_alloc_write].
  unfold forwardRequest. change (conns (alloc_req s)) with (conns s).
  destruct (conns s !! ws t) as [k|]; [|by apply inv_alloc_write].
  destruct (bool_decide _); [by apply inv_alloc_collect|by apply inv_alloc_write].
Qed.

Lemma inv_on_data h chunk s : inv s → inv (on_data h chunk s).
Proof.
  intros I. unfold on_data.
  assert (Hl1 : ∀ g h', sink_log (set_collecting g s) h' = sink_log s h') by done.
  split; simpl; try apply I.
  - intros h' Hge. destruct (inv_fresh s I h' Hge) as (? & ? & Hc).
    split; [done|]. split; [done|]. rewrite lookup_alter. case_decide; [subst|done].
    by rewrite Hc.
  - intros h' f. rewrite Hl1, lookup_alter. case_decide; [subst|apply I].
    destruct (collecting s !! h') as [f0|] eqn:E; [|done]. intros _. by apply (inv_collecting s I h' f0).
Qed.

Lemma inv_on_end h s : inv s → inv (on_end h s).
Proof.
  intros I. unfold on_end. destruct (collecting s !! h) as [f|] eqn:Hf; [|done].
  destruct (inv_collecting s I h f Hf) as [Hlog Hnt].
  pose proof (collecting_lt s h f I Hf) as Hlt.
  set (s0 := send (in_ws f) (request_msg f) s).
  destruct (send_same (in_ws f) (request_msg f) s) as [(Hp & Ht & Hs & Hc & Hn) Htn].
  assert (I0 : inv s0) by by apply inv_send.
  fold s0 in Hp, Ht, Hs, Hc, Hn, Htn.
  assert (Hl : ∀ h', sink_log s0 h' = sink_log s h') by (intros; unfold sink_log; by rewrite Hs).
  split; simpl.
  - apply I0.
  - intros h' Hge. rewrite Hn in Hge. destruct (inv_fresh s I h' Hge) as (? & ? & ?).
    rewrite Hs, Ht, Hc. rewrite lookup_insert_ne, lookup_delete_ne by lia. done.
  - intros k' h'. change (sink_log _ h') with (sink_log s0 h'). rewrite Hp, Hl, Ht.
    destruct (decide (in_id f = k')) as [<-|Hne].
    + rewrite lookup_insert_eq. intros [= <-]. split; [done|].
      rewrite lookup_insert_eq. by eexists.
    + rewrite lookup_insert_ne by done. intros Hk'.
      destruct (inv_pending s I k' h' Hk') as (Hlog' & t' & Ht' & Hid').
      split; [done|]. exists t'. rewrite lookup_insert_ne by (intros <-; congruence). done.
  - intros h' f'. change (sink_log _ h') with (sink_log s0 h'). rewrite Hc, Hl, Ht.
    intros Hc'. apply lookup_delete_Some in Hc' as [Hne Hc'].
    rewrite lookup_insert_ne by done. by apply (inv_collecting s I h' f').
  - apply I0.
Qed.

Lemma headersSent_false s h : headersSent s h = false ↔ sink_log s h = [].
Proof. unfold headersSent. by destruct (sink_log s h). Qed.

Lemma inv_on_timeout h s : inv s → inv (on_timeout h s).
Proof.
  intros I. unfold on_timeout. destruct (timers s !! h) as [t|] eqn:Ht; [|done].
  pose proof (timer_lt s h t I Ht) as Hlt.
  set (s1 := set_pending (delete (timer_id t)) (set_timers (delete h) s)).
  assert (Hl1 : ∀ h', sink_log s1 h' = sink_log s h') by done.
  assert (Hnp : ∀ k' h', pendingResponses s1 !! k' = Some h' → h ≠ h' ∧ pendingResponses s !! k' = Some h').
  { intros k' h'; simpl. intros Hk'. apply lookup_delete_Some in Hk' as [Hne Hk'].
    split; [|done]. intros <-. destruct (inv_pending s I k' h Hk') as (_ & t' & Ht' & Hid').
    congruence. }
  assert (Hnc : ∀ h' f, collecting s !! h' = Some f → h ≠ h').
  { intros h' f Hc <-. destruct (inv_collecting s I h f Hc). congruence. }
  destruct (headersSent s1 h) eqn:Hsent.
  - assert (Hlog : sink_log s h ≠ []).
    { intros Hlog. apply not_true_iff_false in Hsent; [done|]. apply headersSent_false. by rewrite Hl1. }
    split; simpl.
    + apply I.
    + intros h' Hge. destruct (inv_fresh s I h' Hge) as (? & ? & ?).
      rewrite lookup_delete_ne by lia. done.
    + intros k' h' Hk'. destruct (Hnp k' h' Hk') as [Hne Hk].
      rewrite Hl1, lookup_delete_ne by done. by apply I.
    + intros h' f Hc. rewrite Hl1, lookup_delete_ne by by eapply Hnc. by apply (inv_collecting s I h' f).
    + apply I.
  - apply headersSent_false in Hsent. rewrite Hl1 in Hsent.
    split.
    + intros h'. destruct (decide (h = h')) as [<-|Hne].
      * rewrite sink_log_write_eq, Hl1, Hsent. simpl; lia.
      * rewrite sink_log_write_ne, Hl1 by done. apply I.
    + intros h' Hge; simpl in *. destruct (inv_fresh s I h' Hge) as (? & ? & ?).
      rewrite lookup_insert_ne, lookup_delete_ne by lia. done.
    + intros k' h' Hk'. destruct (Hnp k' h' Hk') as [Hne Hk].
      rewrite sink_log_write_ne, Hl1 by done. simpl. rewrite lookup_delete_ne by done. by apply I.
    + intros h' f Hc. simpl in Hc. rewrite sink_log_write_ne, Hl1 by by eapply Hnc.
      simpl. rewrite lookup_delete_ne by by eapply Hnc. by apply (inv_collecting s I h' f).
    + apply I.
Qed.

Lemma inv_on_connection addr s : inv s → inv (on_connection addr s).
Proof. intros I. apply (inv_same_requests s); [done|apply I|done]. Qed.

Lemma inv_step cfg s e : inv s → inv (step cfg s e).
Proof.
  intros I. destruct e; simpl.
  - by apply inv_on_connection.
  - destruct (live s c); [by apply inv_on_message|done].
  - destruct (live s c); [by apply inv_on_close|done].
  - done.
  - by apply inv_ping_tick.
  - by apply inv_on_request.
  - by apply inv_on_data.
  - by apply inv_on_end.
  - by apply inv_on_timeout.
Qed.

Lemma inv_run cfg evs : ∀ s, inv s → inv (run cfg evs s).
Proof.
  induction evs as [|e evs IH]; intros s I; simpl; [done|].
  apply IH. by apply inv_step.
Qed.

Lemma reachable_inv cfg s : reachable cfg s → inv s.
Proof. intros [evs ->]. apply inv_run, inv_initial. Qed.

Lemma reachable_step cfg s e : reachable cfg s → reachable cfg (step cfg s e).
Proof.
  intros [evs ->]. exists (evs ++ [e])%list. unfold run. by rewrite foldl_app.
Qed.

(** *** Requests that get an answer *)

Lemma answered_initial : answered initial.
Proof. intros h Hlt. simpl in Hlt. lia. Qed.

Lemma answered_same_requests s s' : same_requests s s' → answered s → answered s'.
Proof.
  intros (Hp & Ht & Hs & Hc & Hn) A h.
  assert (Hl : sink_log s' h = sink_log s h) by (unfold sink_log; by rewrite Hs).
  rewrite Hn, Hl, Ht, Hc. apply A.
Qed.

Lemma answered_complete k h r s :
  answered s → answered (write h r (set_pending (delete k) (set_timers (delete h) s))).
Proof.
  intros A h' Hlt'; simpl in *. destruct (decide (h = h')) as [<-|Hne].
  - rewrite sink_log_write_eq. by destruct (sink_log _ h).
  - rewrite sink_log_write_ne by done.
    change (sink_log _ h') with (sink_log s h').
    rewrite lookup_delete_ne by done. by apply A.
Qed.

Lemma is_response_type msg ty :
  get_prop msg "type" = Normal (Some (JStr ty)) → String.eqb ty "response" = true →
  is_response msg = true.
Proof. unfold is_response. by intros -> ->. Qed.

Lemma answered_on_message cfg c data r w s :
  answered s →
  (∀ msg, data = Parsed msg → refused s msg w = false) →
  answered (on_message cfg c data r w s).
Proof.
  intros A Hacc. unfold on_message.
  destruct data as [|msg]; [by apply (answered_same_requests s)|].
  specialize (Hacc msg eq_refl).
  destruct (get_prop msg "type") as [[[| | |ty| |]|]|] eqn:Hty; try done.
  destruct (String.eqb ty "init").
  { apply (answered_same_requests s); [|done].
    unfold handleInit, same_requests; simpl.
    by destruct (send_same c (ready_msg (tunnel_url cfg (generateSubdomain r)) (generateSubdomain r))
      (set_tunnels (λ t, <[generateSubdomain r := {| ws := c; localPort := or_else (prop msg "localPort") (JNum 3000) |}]> t) s))
      as ((-> & -> & -> & -> & ->) & _). }
  destruct (String.eqb ty "response") eqn:Hresp; [|done].
  unfold handleResponse.
  destruct (pending_get s (prop msg "id")) as [[k h]|] eqn:E; [|done].
  destruct w; [by apply answered_complete|].
  unfold refused in Hacc. rewrite (is_response_type msg ty Hty Hresp), E in Hacc. done.
Qed.

Lemma answered_fail k h r s :
  inv s → pendingResponses s !! k = Some h →
  answered s → answered (set_pending (delete k) (write h r s)).
Proof.
  intros I Hk A h' Hlt'; simpl in *.
  destruct (inv_pending s I k h Hk) as (Hlog & t & Ht & Hid).
  change (sink_log _ h') with (sink_log (write h r s) h').
  destruct (decide (h = h')) as [<-|Hne].
  - intros _. left. by exists t.
  - rewrite sink_log_write_ne by done. by apply A.
Qed.

Lemma answered_fail_entries sub s (l : list (string * nat)) :
  NoDup l.*1 →
  (∀ k h, (k, h) ∈ l → pendingResponses s !! k = Some h) →
  inv s → answered s →
  answered (foldr (fail_entry sub) s l).
Proof.
  induction l as [|[k0 h0] l IH]; intros Hnd Hin I A; simpl; [done|].
  apply NoDup_cons in Hnd as [Hk0 Hnd].
  assert (Hin' : ∀ k h, (k, h) ∈ l → pendingResponses s !! k = Some h).
  { intros k h Hkh. apply Hin. by right. }
  destruct (inv_fail_entries sub s l Hnd Hin' I) as [I' Hsame].
  specialize (IH Hnd Hin' I A).
  unfold fail_entry at 1; simpl. destruct (startsWith k0 sub); [|done].
  apply answered_fail; [done| |done]. rewrite Hsame by done. apply Hin. by left.
Qed.

Lemma answered_on_close c s : inv s → answered s → answered (on_close c s).
Proof.
  intros I A. unfold on_close. destruct (conns s !! c) as [k|]; [|done].
  set (s1 := set_conns _ s).
  assert (I1 : inv s1) by (apply (inv_same_requests s); [done|apply I|done]).
  assert (A1 : answered s1) by by apply (answered_same_requests s).
  assert (A2 : answered (match subdomain k with
     | Some sub => if String.eqb sub "" then s1 else fail_pending sub (set_tunnels (delete sub) s1)
     | None => s1 end)).
  { destruct (subdomain k) as [sub|]; [|done].
    destruct (String.eqb sub ""); [done|].
    unfold fail_pending. apply answered_fail_entries.
    - apply NoDup_fst_map_to_list.
    - intros k' h'. apply elem_of_map_to_list.
    - apply (inv_same_requests s1); [done| |done].
      intros k' t; simpl. intros Hk'. apply lookup_delete_Some in Hk' as [_ Hk'].
      by apply (inv_keys s I k' t).
    - by apply (answered_same_requests s1). }
  destruct (pingInterval k); [|done].
  eapply answered_same_requests; [|exact A2]. done.
Qed.

Lemma answered_alloc_write r s : answered s → answered (write (next_req s) r (alloc_req s)).
Proof.
  intros A h' Hlt'; simpl in *. destruct (decide (next_req s = h')) as [<-|Hne].
  - rewrite sink_log_write_eq. by destruct (sink_log (alloc_req s) (next_req s)).
  - rewrite sink_log_write_ne by done. change (sink_log _ h') with (sink_log s h').
    apply A. lia.
Qed.

Lemma answered_alloc_collect f s :
  answered s → answered (set_collecting (λ m, <[next_req s := f]> m) (alloc_req s)).
Proof.
  intros A h' Hlt'; simpl in *. change (sink_log _ h') with (sink_log s h').
  destruct (decide (next_req s = h')) as [<-|Hne].
  - intros _. right. rewrite lookup_insert_eq. by eexists.
  - rewrite lookup_insert_ne by done. apply A. lia.
Qed.

Lemma answered_on_request req now rnd s : answered s → answered (on_request req now rnd s).
Proof.
  intros A. unfold on_request.
  destruct (String.eqb (req_url req) "/_health"); [by apply answered_alloc_write|].
  change (tunnels (alloc_req s)) with (tunnels s).
  destruct (tunnels s !! _) as [t|]; [|by apply answered_alloc_write].
  unfold forwardRequest. change (conns (alloc_req s)) with (conns s).
  destruct (conns s !! ws t) as [k|]; [|by apply answered_alloc_write].
  destruct (bool_decide _); [by apply answered_alloc_collect|by apply answered_alloc_write].
Qed.

Lemma answered_on_data h chunk s : answered s → answered (on_data h chunk s).
Proof.
  intros A h' Hlt. unfold on_data in *. simpl in *.
  change (sink_log _ h') with (sink_log s h').
  intros Hlog. destruct (A h' Hlt Hlog) as [?|Hc]; [by left|right].
  rewrite lookup_alter. case_decide; [subst|done]. by apply fmap_is_Some.
Qed.

Lemma answered_on_end h s : answered s → answered (on_end h s).
Proof.
  intros A. unfold on_end. destruct (collecting s !! h) as [f|] eqn:Hf; [|done].
  set (s0 := send (in_ws f) (request_msg f) s).
  destruct (send_same (in_ws f) (request_msg f) s) as [(Hp & Ht & Hs & Hc & Hn) Htn].
  fold s0 in Hp, Ht, Hs, Hc, Hn, Htn.
  assert (Hl : ∀ h', sink_log s0 h' = sink_log s h') by (intros; unfold sink_log; by rewrite Hs).
  intros h'; simpl. change (sink_log _ h') with (sink_log s0 h'). rewrite Hn, Hl, Ht, Hc.
  intros Hlt' Hlog'. destruct (decide (h = h')) as [<-|Hne].
  - left. rewrite lookup_insert_eq. by eexists.
  - rewrite lookup_insert_ne, lookup_delete_ne by done. by apply A.
Qed.

Lemma answered_on_timeout h s : answered s → answered (on_timeout h s).
Proof.
  intros A. unfold on_timeout. destruct (timers s !! h) as [t|] eqn:Ht; [|done].
  set (s1 := set_pending (delete (timer_id t)) (set_timers (delete h) s)).
  assert (Hl1 : ∀ h', sink_log s1 h' = sink_log s h') by done.
  destruct (headersSent s1 h) eqn:Hsent.
  - assert (Hlog : sink_log s h ≠ []).
    { intros Hlog. apply not_true_iff_false in Hsent; [done|]. apply headersSent_false. by rewrite Hl1. }
    intros h' Hlt'. rewrite Hl1. intros Hlog'.
    assert (h ≠ h') by (intros <-; done).
    simpl. rewrite lookup_delete_ne by done. by apply A.
  - intros h' Hlt'. simpl in Hlt'. destruct (decide (h = h')) as [<-|Hne].
    + rewrite sink_log_write_eq. by destruct (sink_log s1 h).
    + rewrite sink_log_write_ne, Hl1 by done. simpl. rewrite lookup_delete_ne by done. by apply A.
Qed.

Lemma answered_step cfg s e :
  inv s → answered s → accepted s e = true → answered (step cfg s e).
Proof.
  intros I A Hacc. destruct e; simpl.
  - by apply (answered_same_requests s).
  - destruct (live s c) eqn:Hlive; [|done].
    apply answered_on_message; [done|].
    intros msg ->. simpl in Hacc. rewrite Hlive in Hacc.
    by destruct (refused s msg w).
  - destruct (live s c); [by apply answered_on_close|done].
  - done.
  - unfold ping_tick. destruct (intervals s !! i); [|done].
    apply (answered_same_requests s); [|done]. apply send_same.
  - by apply answered_on_request.
  - by apply answered_on_data.
  - by apply answered_on_end.
  - by apply answered_on_timeout.
Qed.

Lemma answered_run cfg evs : ∀ s,
  inv s → answered s → accepted_run cfg evs s = true → answered (run cfg evs s).
Proof.
  induction evs as [|e evs IH]; intros s I A Hacc; simpl; [done|].
  simpl in Hacc. apply andb_true_iff in Hacc as [He Hacc].
  apply IH; [by apply inv_step|by apply answered_step|done].
Qed.

Lemma reachable_accepted_answered cfg s : reachable_accepted cfg s → answered s.
Proof.
  intros (evs & Hacc & ->). by apply answered_run; [apply inv_initial|apply answered_initial|].
Qed.

Lemma reachable_accepted_reachable cfg s : reachable_accepted cfg s → reachable cfg s.
Proof. intros (evs & _ & ->). by exists evs. Qed.

(** *** Identifiers *)

Lemma hex_digit_is_hex n : is_hex (hex_digit n) = true.
Proof.
  destruct n as [|p]; [done|].
  do 5 (try (destruct p as [p|p|]; try done)).
Qed.

Lemma all_hex_toString_hex bs : all_hex (toString_hex bs) = true.
Proof.
  induction bs as [|b bs IH]; [done|].
  cbn [toString_hex all_hex]. by rewrite !hex_digit_is_hex, IH.
Qed.

Lemma prefix_hex p : ∀ s,
  String.prefix p s = true → all_hex p = true → hex_prefix (String.length p) s = true.
Proof.
  induction p as [|a p IH]; intros s Hp Hh; [done|].
  destruct s as [|b s]; [done|]. simpl in *.
  destruct (ascii_dec a b) as [<-|]; [|done].
  apply andb_true_iff in Hh as [-> Hh]. simpl. by apply IH.
Qed.

(** A key that starts with a generated identifier starts with twelve
    hexadecimal digits. *)
Lemma generated_prefix_is_hex r id :
  startsWith id (generateSubdomain r) = true → hex_prefix 12 id = true.
Proof.
  intros Hp. rewrite <- (generateSubdomain_length r).
  apply prefix_hex; [done|]. apply all_hex_toString_hex.
Qed.

(** A request id starts with the remote address and a dash, so it starts
    with twelve hexadecimal digits only if the address does. *)
Lemma request_id_hex_prefix n : ∀ addr now rnd,
  hex_prefix n (request_id addr now rnd) = true → hex_prefix n addr = true.
Proof.
  unfold request_id. induction n as [|n IH]; intros addr now rnd; [done|].
  destruct addr as [|c addr]; [done|]. cbn [String.app hex_prefix].
  intros H. apply andb_true_iff in H as [-> H]. by apply (IH addr now rnd).
Qed.

Lemma fail_entries_no_match sub s (l : list (string * nat)) :
  (∀ e, e ∈ l → startsWith e.1 sub = false) →
  foldr (fail_entry sub) s l = s.
Proof.
  induction l as [|e l IH]; intros Hl; simpl; [done|].
  rewrite IH by (intros e' He'; apply Hl; by right).
  unfold fail_entry. rewrite (Hl e) by by left. done.
Qed.

(** The 'close' handler of a socket with a generated identifier fails no
    request whose id does not start with twelve hexadecimal digits; ids
    start with the remote address of the socket (see [request_id]). *)
Lemma close_spares_requests c k r s :
  conns s !! c = Some k →
  subdomain k = Some (generateSubdomain r) →
  (∀ id h, pendingResponses s !! id = Some h → hex_prefix 12 id = false) →
  pendingResponses (on_close c s) = pendingResponses s
  ∧ sinks (on_close c s) = sinks s.
Proof.
  intros Hk Hsub Hids. unfold on_close. rewrite Hk, Hsub.
  destruct (String.eqb_spec (generateSubdomain r) "") as [E|_].
  { by destruct (pingInterval k). }
  unfold fail_pending. rewrite fail_entries_no_match.
  { by destruct (pingInterval k). }
  intros [id h] He. apply elem_of_map_to_list in He. cbn [fst].
  destruct (startsWith id (generateSubdomain r)) eqn:E; [|done].
  apply generated_prefix_is_hex in E. by rewrite (Hids id h He) in E.
Qed.

(** In particular it fails no request forwarded over a socket whose
    remote address does not start with twelve hexadecimal digits, as no
    IPv4 or IPv6 address does. *)
Lemma close_spares_forwarded c k r s :
  conns s !! c = Some k →
  subdomain k = Some (generateSubdomain r) →
  (∀ id h, pendingResponses s !! id = Some h →
     ∃ addr now rnd, id = request_id addr now rnd ∧ hex_prefix 12 addr = false) →
  pendingResponses (on_close c s) = pendingResponses s
  ∧ sinks (on_close c s) = sinks s.
Proof.
  intros Hk Hsub Hids. apply (close_spares_requests c k r); [done|done|].
  intros id h Hid. destruct (Hids id h Hid) as (addr & now & rnd & -> & Haddr).
  destruct (hex_prefix 12 (request_id addr now rnd)) eqn:E; [|done].
  apply request_id_hex_prefix in E. congruence.
Qed.

(** *** Reachable states *)

Lemma forwarded_reachable : reachable default_config forwarded_state.
Proof. by exists forwarded_trace. Qed.

Lemma closing_reachable : reachable default_config closing_state.
Proof. by exists closing_trace. Qed.

(** *** Closing a tunnel *)

(** C1, evaluated on the code: a request forwarded to the tunnel
    a1b2c3d4e5f6 is pending under the id 127.0.0.1-1700000000000-0.5;
    the 'close' event of the tunnel's socket removes the tunnel but
    leaves the entry in the table and writes nothing to the caller, who
    is answered by the timer with a 504. *)
Theorem close_leaves_request_pending :
  subdomain <$> conns forwarded_state !! 0 = Some (Some "a1b2c3d4e5f6")
  ∧ pendingResponses forwarded_state !! id_A = Some 0
  ∧ pendingResponses (step default_config forwarded_state (WsClose 0)) !! id_A = Some 0
  ∧ tunnels (step default_config forwarded_state (WsClose 0)) !! "a1b2c3d4e5f6" = None
  ∧ sink_log (step default_config forwarded_state (WsClose 0)) 0 = []
  ∧ sink_log (step default_config (step default_config forwarded_state (WsClose 0))
                (TimerFire 0)) 0
    = [gateway_timeout].
Proof. repeat split; vm_compute; reflexivity. Qed.

(** *** Responses and deadlines *)

Lemma on_message_response cfg c msg r w s :
  get_prop msg "type" = Normal (Some (JStr "response")) →
  on_message cfg c (Parsed msg) r w s
  = match handleResponse msg w s with
    | Returned s' => s'
    | Raised s' => ws_close c s'
    end.
Proof. unfold on_message. by intros ->. Qed.

Lemma handleResponse_pending msg k h s :
  prop msg "id" = Some (JStr k) → pendingResponses s !! k = Some h →
  handleResponse msg Completed s
  = Returned (write h (relayed msg) (set_pending (delete k) (set_timers (delete h) s))).
Proof. unfold handleResponse, pending_get. by intros -> ->. Qed.

Lemma handleResponse_refused msg k h s :
  prop msg "id" = Some (JStr k) → pendingResponses s !! k = Some h →
  handleResponse msg Refused s
  = Raised (set_pending (delete k) (set_timers (delete h) s)).
Proof. unfold handleResponse, pending_get. by intros -> ->. Qed.

Lemma handleResponse_unknown msg w s :
  pending_get s (prop msg "id") = None → handleResponse msg w s = Returned s.
Proof. unfold handleResponse. by intros ->. Qed.

Lemma response_step cfg s c msg r k h :
  live s c = true →
  get_prop msg "type" = Normal (Some (JStr "response")) →
  prop msg "id" = Some (JStr k) →
  pendingResponses s !! k = Some h →
  step cfg s (WsMessage c (Parsed msg) r Completed)
  = write h (relayed msg) (set_pending (delete k) (set_timers (delete h) s)).
Proof.
  intros Hlive Hty Hid Hk. cbn [step]. rewrite Hlive.
  by rewrite on_message_response, (handleResponse_pending msg k h).
Qed.

Lemma response_completes cfg s c msg r k h :
  inv s →
  live s c = true →
  get_prop msg "type" = Normal (Some (JStr "response")) →
  prop msg "id" = Some (JStr k) →
  pendingResponses s !! k = Some h →
  sink_log (step cfg s (WsMessage c (Parsed msg) r Completed)) h = [relayed msg].
Proof.
  intros I Hlive Hty Hid Hk. rewrite (response_step cfg s c msg r k h) by done.
  rewrite sink_log_write_eq.
  destruct (inv_pending s I k h Hk) as [Hlog _].
  change (sink_log (set_pending _ _) h) with (sink_log s h). by rewrite Hlog.
Qed.

(** A refused response: the timer is cleared, the entry deleted, nothing
    is written and the socket that sent it is closed. *)
Lemma response_refused cfg s c msg r k h :
  live s c = true →
  get_prop msg "type" = Normal (Some (JStr "response")) →
  prop msg "id" = Some (JStr k) →
  pendingResponses s !! k = Some h →
  step cfg s (WsMessage c (Parsed msg) r Refused)
  = ws_close c (set_pending (delete k) (set_timers (delete h) s)).
Proof.
  intros Hlive Hty Hid Hk. cbn [step]. rewrite Hlive.
  by rewrite on_message_response, (handleResponse_refused msg k h).
Qed.

Lemma on_timeout_pending s k h :
  inv s → pendingResponses s !! k = Some h →
  on_timeout h s
  = write h gateway_timeout (set_pending (delete k) (set_timers (delete h) s)).
Proof.
  intros I Hk. destruct (inv_pending s I k h Hk) as (Hlog & t & Ht & Hid).
  unfold on_timeout. rewrite Ht, Hid.
  assert (Hs : headersSent (set_pending (delete k) (set_timers (delete h) s)) h = false).
  { apply headersSent_false. exact Hlog. }
  by rewrite Hs.
Qed.

Lemma on_timeout_unarmed s h : timers s !! h = None → on_timeout h s = s.
Proof. unfold on_timeout. by intros ->. Qed.

Lemma on_timeout_length s h :
  inv s → is_Some (timers s !! h) → length (sink_log (on_timeout h s) h) = 1.
Proof.
  intros I [t Ht]. unfold on_timeout. rewrite Ht.
  set (s1 := set_pending _ _).
  assert (Hl1 : sink_log s1 h = sink_log s h) by done.
  pose proof (inv_once s I h) as Hle.
  destruct (headersSent s1 h) eqn:Hsent.
  - rewrite Hl1. unfold headersSent in Hsent. rewrite Hl1 in Hsent.
    destruct (sink_log s h); simpl in *; [done|lia].
  - apply headersSent_false in Hsent. rewrite sink_log_write_eq, Hsent. done.
Qed.

Lemma unknown_response_ignored cfg s c msg r w :
  get_prop msg "type" = Normal (Some (JStr "response")) →
  pending_get s (prop msg "id") = None →
  step cfg s (WsMessage c (Parsed msg) r w) = s.
Proof.
  intros Hty Hid. cbn [step]. destruct (live s c); [|done].
  rewrite on_message_response by done. by rewrite handleResponse_unknown.
Qed.

(** *** A request nothing will answer *)

Lemma abandoned_same_requests s s' h :
  same_requests s s' → abandoned s h → abandoned s' h ∧ sink_log s' h = sink_log s h.
Proof.
  intros (Hp & Ht & Hs & Hc & Hn) (Hlt & Htm & Hcl & Hpe).
  unfold abandoned, sink_log. by rewrite Hp, Ht, Hs, Hc, Hn.
Qed.

Lemma abandoned_on_message cfg c data r w s h :
  abandoned s h →
  abandoned (on_message cfg c data r w s) h
  ∧ sink_log (on_message cfg c data r w s) h = sink_log s h.
Proof.
  intros A. unfold on_message.
  destruct data as [|msg]; [by apply abandoned_same_requests|].
  destruct (get_prop msg "type") as [[[| | |ty| |]|]|] eqn:Hty; try done;
    try by apply abandoned_same_requests.
  destruct (String.eqb ty "init").
  { apply abandoned_same_requests; [|done].
    unfold handleInit, same_requests; simpl.
    by destruct (send_same c (ready_msg (tunnel_url cfg (generateSubdomain r)) (generateSubdomain r))
      (set_tunnels (λ t, <[generateSubdomain r := {| ws := c; localPort := or_else (prop msg "localPort") (JNum 3000) |}]> t) s))
      as ((-> & -> & -> & -> & ->) & _). }
  destruct (String.eqb ty "response"); [|done].
  unfold handleResponse.
  destruct (pending_get s (prop msg "id")) as [[k h0]|] eqn:E; [|done].
  apply pending_get_Some in E as [_ Hk].
  destruct A as (Hlt & Htm & Hcl & Hpe).
  assert (Hne : h0 ≠ h) by (intros ->; by apply (Hpe k)).
  assert (A1 : abandoned (set_pending (delete k) (set_timers (delete h0) s)) h).
  { split; [done|]. split; [simpl; by rewrite lookup_delete_ne|]. split; [done|].
    intros k' Hk'. simpl in Hk'. apply lookup_delete_Some in Hk' as [_ Hk']. by apply (Hpe k'). }
  destruct w.
  - split; [|by rewrite sink_log_write_ne].
    destruct A1 as (? & ? & ? & ?). done.
  - destruct (abandoned_same_requests _
      (ws_close c (set_pending (delete k) (set_timers (delete h0) s))) h
      (proj1 (ws_close_same c _)) A1) as [A2 Hl].
    split; [done|]. by rewrite Hl.
Qed.

Lemma abandoned_fail_entries sub s h (l : list (string * nat)) :
  (∀ k h', (k, h') ∈ l → h' ≠ h) →
  abandoned s h →
  abandoned (foldr (fail_entry sub) s l) h
  ∧ sink_log (foldr (fail_entry sub) s l) h = sink_log s h.
Proof.
  induction l as [|[k0 h0] l IH]; intros Hin A; simpl; [done|].
  destruct IH as [(Hlt & Htm & Hcl & Hpe) Hlog]; [|done|].
  { intros k h' Hkh. apply (Hin k). by right. }
  unfold fail_entry at 1 3; simpl. destruct (startsWith k0 sub); [|done].
  assert (h0 ≠ h) by (apply (Hin k0); by left).
  split; [|change (sink_log (set_pending _ ?x) h) with (sink_log x h);
           by rewrite sink_log_write_ne].
  split; [done|]. split; [done|]. split; [done|].
  intros k' Hk'. simpl in Hk'. apply lookup_delete_Some in Hk' as [_ Hk']. by apply (Hpe k').
Qed.

Lemma abandoned_on_close c s h :
  abandoned s h → abandoned (on_close c s) h ∧ sink_log (on_close c s) h = sink_log s h.
Proof.
  intros A. unfold on_close. destruct (conns s !! c) as [k|]; [|done].
  set (s1 := set_conns _ s).
  assert (A2 : abandoned (match subdomain k with
     | Some sub => if String.eqb sub "" then s1 else fail_pending sub (set_tunnels (delete sub) s1)
     | None => s1 end) h
     ∧ sink_log (match subdomain k with
     | Some sub => if String.eqb sub "" then s1 else fail_pending sub (set_tunnels (delete sub) s1)
     | None => s1 end) h = sink_log s h).
  { destruct (subdomain k) as [sub|]; [|done].
    destruct (String.eqb sub ""); [done|].
    unfold fail_pending.
    assert (A0 : abandoned (set_tunnels (delete sub) s1) h) by exact A.
    apply (abandoned_fail_entries sub (set_tunnels (delete sub) s1) h); [|done].
    intros k' h' Hin ->. apply elem_of_map_to_list in Hin.
    destruct A as (_ & _ & _ & Hpe). by apply (Hpe k'). }
  destruct (pingInterval k); [|done].
  destruct A2 as [A2 <-]. by apply abandoned_same_requests.
Qed.

Lemma abandoned_on_request req now rnd s h :
  abandoned s h →
  abandoned (on_request req now rnd s) h
  ∧ sink_log (on_request req now rnd s) h = sink_log s h.
Proof.
  intros (Hlt & Htm & Hcl & Hpe).
  assert (Hw : ∀ r, abandoned (write (next_req s) r (alloc_req s)) h
                    ∧ sink_log (write (next_req s) r (alloc_req s)) h = sink_log s h).
  { intros r. split; [|by rewrite sink_log_write_ne by lia].
    split; [simpl; lia|done]. }
  unfold on_request.
  destruct (String.eqb (req_url req) "/_health"); [done|].
  change (tunnels (alloc_req s)) with (tunnels s).
  destruct (tunnels s !! _) as [t|]; [|done].
  unfold forwardRequest. change (conns (alloc_req s)) with (conns s).
  destruct (conns s !! ws t) as [k|]; [|done].
  destruct (bool_decide _); [|done].
  split; [|done]. split; [simpl; lia|]. split; [done|].
  split; [|done]. simpl. by rewrite lookup_insert_ne by lia.
Qed.

Lemma abandoned_on_data h' chunk s h :
  abandoned s h →
  abandoned (on_data h' chunk s) h ∧ sink_log (on_data h' chunk s) h = sink_log s h.
Proof.
  intros (Hlt & Htm & Hcl & Hpe). split; [|done].
  split; [done|]. split; [done|]. split; [|done].
  unfold on_data; simpl. rewrite lookup_alter. case_decide; [subst|done]. by rewrite Hcl.
Qed.

Lemma abandoned_on_end h' s h :
  abandoned s h →
  abandoned (on_end h' s) h ∧ sink_log (on_end h' s) h = sink_log s h.
Proof.
  intros A. unfold on_end. destruct (collecting s !! h') as [f|] eqn:Hf; [|done].
  destruct (abandoned_same_requests s (send (in_ws f) (request_msg f) s) h)
    as [(Hlt & Htm & Hcl & Hpe) Hlog]; [apply send_same|done|].
  assert (Hne : h' ≠ h) by (intros ->; destruct A as (_ & _ & Hc & _); congruence).
  split; [|done].
  split; [done|]. split; [simpl; by rewrite lookup_insert_ne|].
  split; [simpl; by rewrite lookup_delete_ne|].
  intros k; simpl. destruct (decide (in_id f = k)) as [<-|Hk].
  - rewrite lookup_insert_eq. congruence.
  - rewrite lookup_insert_ne by done. apply Hpe.
Qed.

Lemma abandoned_on_timeout h' s h :
  abandoned s h →
  abandoned (on_timeout h' s) h ∧ sink_log (on_timeout h' s) h = sink_log s h.
Proof.
  intros (Hlt & Htm & Hcl & Hpe). unfold on_timeout.
  destruct (timers s !! h') as [t|] eqn:Ht; [|done].
  assert (Hne : h' ≠ h) by (intros ->; congruence).
  set (s1 := set_pending (delete (timer_id t)) (set_timers (delete h') s)).
  assert (A1 : abandoned s1 h).
  { split; [done|]. split; [simpl; by rewrite lookup_delete_ne|]. split; [done|].
    intros k' Hk'. simpl in Hk'. apply lookup_delete_Some in Hk' as [_ Hk']. by apply (Hpe k'). }
  destruct (headersSent s1 h'); [done|].
  split; [|by rewrite sink_log_write_ne].
  destruct A1 as (? & ? & ? & ?). done.
Qed.

Lemma abandoned_step cfg s e h :
  abandoned s h → abandoned (step cfg s e) h ∧ sink_log (step cfg s e) h = sink_log s h.
Proof.
  intros A. destruct e; simpl.
  - by apply abandoned_same_requests.
  - destruct (live s c); [by apply abandoned_on_message|done].
  - destruct (live s c); [by apply abandoned_on_close|done].
  - done.
  - unfold ping_tick. destruct (intervals s !! i); [|done].
    apply abandoned_same_requests; [apply send_same|done].
  - by apply abandoned_on_request.
  - by apply abandoned_on_data.
  - by apply abandoned_on_end.
  - by apply abandoned_on_timeout.
Qed.

(** Whatever happens afterwards, the relay writes nothing more to an
    abandoned request. *)
Lemma abandoned_run cfg evs : ∀ s h,
  abandoned s h → sink_log (run cfg evs s) h = sink_log s h.
Proof.
  induction evs as [|e evs IH]; intros s h A; simpl; [done|].
  destruct (abandoned_step cfg s e h A) as [A' <-]. by apply IH.
Qed.

(** C2 fails on the code. The request forwarded under the id
    127.0.0.1-1700000000000-0.5 is pending with its timer armed; the
    client answers it with a [response] that has no status.
    [handleResponse] clears the timer and deletes the entry, then
    [res.writeHead(undefined, ...)] throws; the [catch] closes the
    client's socket. The caller has received nothing, and no later event
    makes the relay write to it: the sink is completed zero times. *)
Theorem refused_response_leaves_caller_unanswered :
  pendingResponses forwarded_state !! id_A = Some 0
  ∧ is_Some (timers forwarded_state !! 0)
  ∧ sink_log forwarded_state 0 = []
  ∧ (let s' := step default_config forwarded_state
                 (WsMessage 0 (Parsed response_no_status) bytes_A Refused) in
     sink_log s' 0 = []
     ∧ pendingResponses s' !! id_A = None
     ∧ timers s' !! 0 = None
     ∧ readyState <$> conns s' !! 0 = Some CLOSING
     ∧ ∀ evs, sink_log (run default_config evs s') 0 = []).
Proof.
  split; [vm_compute; reflexivity|]. split; [by eexists|]. split; [vm_compute; reflexivity|].
  cbv zeta.
  split; [vm_compute; reflexivity|]. split; [vm_compute; reflexivity|].
  split; [vm_compute; reflexivity|]. split; [vm_compute; reflexivity|].
  intros evs. rewrite abandoned_run; [vm_compute; reflexivity|].
  split; [vm_compute; lia|]. split; [vm_compute; reflexivity|].
  split; [vm_compute; reflexivity|].
  intros k Hk.
  rewrite (response_refused default_config forwarded_state 0 response_no_status bytes_A id_A 0)
    in Hk by (vm_compute; reflexivity).
  simpl in Hk. apply lookup_delete_Some in Hk as [Hne Hk].
  assert (Hdom : ∀ k', is_Some (pendingResponses forwarded_state !! k') → k' = id_A).
  { intros k' Hs. apply elem_of_dom in Hs. revert Hs.
    assert (dom (pendingResponses forwarded_state) = {[id_A]}) as -> by (vm_compute; reflexivity).
    by intros ->%elem_of_singleton. }
  apply Hne. symmetry. apply Hdom. by eexists.
Qed.

(** X21: every path other than a refused response completes a sink once:
    in every reachable state no sink has been completed more than once, and
    as long as no response was refused a request without an answer is
    still reading its body or has its deadline armed; an armed deadline
    that fires leaves the sink with exactly one completion. For a pending
    entry, the deadline firing first writes the 504, removes the entry
    and disarms the timer, and a response for that id afterwards changes
    nothing; a response that Node accepts arriving first writes the
    response, removes the entry and cancels the timer, whose firing
    afterwards changes nothing. A response for an id that is not in the
    table changes nothing (the socket stays open). *)
Theorem sink_completed_once_unless_refused cfg s :
  reachable cfg s →
  (∀ h, (length (sink_log s h) ≤ 1)%nat)
  ∧ (reachable_accepted cfg s →
     ∀ h, (h < next_req s)%nat → sink_log s h = [] →
       is_Some (timers s !! h) ∨ is_Some (collecting s !! h))
  ∧ (∀ h, is_Some (timers s !! h) →
       length (sink_log (step cfg s (TimerFire h)) h) = 1)
  ∧ (∀ k h, pendingResponses s !! k = Some h →
       let s' := step cfg s (TimerFire h) in
       sink_log s h = []
       ∧ sink_log s' h = [plain 504 "Gateway Timeout"]
       ∧ pendingResponses s' !! k = None
       ∧ timers s' !! h = None
       ∧ ∀ c msg r w,
           get_prop msg "type" = Normal (Some (JStr "response")) →
           prop msg "id" = Some (JStr k) →
           step cfg s' (WsMessage c (Parsed msg) r w) = s')
  ∧ (∀ k h c msg r,
       pendingResponses s !! k = Some h →
       live s c = true →
       get_prop msg "type" = Normal (Some (JStr "response")) →
       prop msg "id" = Some (JStr k) →
       let s' := step cfg s (WsMessage c (Parsed msg) r Completed) in
       sink_log s' h = [relayed msg]
       ∧ pendingResponses s' !! k = None
       ∧ timers s' !! h = None
       ∧ step cfg s' (TimerFire h) = s')
  ∧ (∀ c msg r w,
       get_prop msg "type" = Normal (Some (JStr "response")) →
       pending_get s (prop msg "id") = None →
       step cfg s (WsMessage c (Parsed msg) r w) = s).
Proof.
  intros Hr. pose proof (reachable_inv cfg s Hr) as I.
  split; [apply I|]. split; [apply reachable_accepted_answered|].
  split; [intros h Ht; by apply on_timeout_length|].
  split; [|split].
  - intros k h Hk s'. subst s'. cbn [step].
    destruct (inv_pending s I k h Hk) as (Hlog & _).
    rewrite (on_timeout_pending s k h) by done.
    split; [done|]. split.
    { rewrite sink_log_write_eq.
      change (sink_log (set_pending _ _) h) with (sink_log s h). by rewrite Hlog. }
    split; [simpl; apply lookup_delete_eq|].
    split; [simpl; apply lookup_delete_eq|].
    intros c msg r w Hty Hid. apply unknown_response_ignored; [done|].
    rewrite Hid. unfold pending_get; simpl. by rewrite lookup_delete_eq.
  - intros k h c msg r Hk Hlive Hty Hid s'.
    split; [by apply (response_completes cfg s c msg r k h)|].
    subst s'. rewrite (response_step cfg s c msg r k h) by done.
    split; [simpl; apply lookup_delete_eq|].
    split; [simpl; apply lookup_delete_eq|].
    cbn [step]. apply on_timeout_unarmed. simpl. apply lookup_delete_eq.
  - intros c msg r w. apply unknown_response_ignored.
Qed.

Lemma sink_completed_once_unless_refused_witness :
  sink_log (step default_config forwarded_state (TimerFire 0)) 0
  = [plain 504 "Gateway Timeout"]
  ∧ step default_config (step default_config forwarded_state (TimerFire 0))
      (WsMessage 0 (Parsed response_A) bytes_A Completed)
    = step default_config forwarded_state (TimerFire 0).
Proof.
  destruct (sink_completed_once_unless_refused default_config forwarded_state forwarded_reachable)
    as (_ & _ & _ & Hexp & _).
  assert (Hk : pendingResponses forwarded_state !! id_A = Some 0) by (vm_compute; reflexivity).
  destruct (Hexp id_A 0 Hk) as (_ & H504 & _ & _ & Hlate).
  split; [exact H504|].
  apply Hlate; reflexivity.
Defined.

(** C6 fails on the code in two ways. A [response] for the pending id
    that carries no status makes [res.writeHead] throw: nothing is
    written to the caller. And when two requests were forwarded under
    one id (same address, same millisecond, same [Math.random()]), the
    second [pendingResponses.set] replaced the first entry: the client's
    [response] for that id is written to the second caller only, and the
    first, although forwarded and answered, gets the timer's 504. *)
Lemma answered_request_not_relayed :
  pendingResponses forwarded_state !! id_A = Some 0
  ∧ sink_log (step default_config forwarded_state
                (WsMessage 0 (Parsed response_no_status) bytes_A Refused)) 0 = []
  ∧ outbox_of overwritten_state 0
    = [ready_msg "http://a1b2c3d4e5f6.tunnel.localhost:8081" "a1b2c3d4e5f6";
       JObj [("type", JStr "request"); ("id", JStr id_A); ("method", JStr "GET");
             ("path", JStr "/");
             ("headers", JObj [("host", JStr "a1b2c3d4e5f6.tunnel.localhost:8081")])];
       JObj [("type", JStr "request"); ("id", JStr id_A); ("method", JStr "GET");
             ("path", JStr "/");
             ("headers", JObj [("host", JStr "a1b2c3d4e5f6.tunnel.localhost:8081")])]]
  ∧ timer_id <$> timers overwritten_state !! 0 = Some id_A
  ∧ timer_id <$> timers overwritten_state !! 1 = Some id_A
  ∧ pendingResponses overwritten_state !! id_A = Some 1
  ∧ (let s' := step default_config overwritten_state
                 (WsMessage 0 (Parsed response_A) bytes_A Completed) in
     sink_log s' 1 = [relayed response_A]
     ∧ sink_log s' 0 = []
     ∧ sink_log (step default_config s' (TimerFire 0)) 0 = [gateway_timeout]).
Proof. repeat split; vm_compute; reflexivity. Qed.

(** C6, as the code has it: in a reachable state, a [response] message
    whose id is in the pending table and whose status, headers and body
    Node accepts makes the relay write exactly that status, those headers
    and that body to the caller of the request stored under the id, and
    nothing else to it or to any other caller. *)
Theorem response_relayed_verbatim cfg s c msg r w k h :
  reachable cfg s →
  live s c = true →
  get_prop msg "type" = Normal (Some (JStr "response")) →
  prop msg "id" = Some (JStr k) →
  pendingResponses s !! k = Some h →
  w = Completed →
  let s' := step cfg s (WsMessage c (Parsed msg) r w) in
  sink_log s' h
  = [{| status := prop msg "status";
        headers := prop msg "headers";
        body := Chunk (prop msg "body") |}]
  ∧ ∀ h', h' ≠ h → sink_log s' h' = sink_log s h'.
Proof.
  intros Hr Hlive Hty Hid Hk -> s'. subst s'. split.
  - apply (response_completes cfg s c msg r k h); [by apply (reachable_inv cfg)|done..].
  - intros h' Hne. rewrite (response_step cfg s c msg r k h) by done.
    by rewrite sink_log_write_ne.
Qed.

Lemma response_relayed_verbatim_witness :
  let s' := step default_config forwarded_state
              (WsMessage 0 (Parsed response_A) bytes_A Completed) in
  sink_log s' 0
  = [{| status := prop response_A "status";
        headers := prop response_A "headers";
        body := Chunk (prop response_A "body") |}]
  ∧ ∀ h', h' ≠ 0%nat → sink_log s' h' = sink_log forwarded_state h'.
Proof.
  apply (response_relayed_verbatim default_config forwarded_state 0 response_A bytes_A
           Completed id_A 0).
  - exact forwarded_reachable.
  - vm_compute; reflexivity.
  - reflexivity.
  - reflexivity.
  - vm_compute; reflexivity.
  - reflexivity.
Defined.

(** *** Registration *)

(** C3 fails on the code: a socket that sends [init] while the registry
    already holds the identifier drawn for it is registered under that
    very identifier, which both sockets then carry; the earlier tunnel's
    entry is replaced. *)
Lemma registration_collides :
  tunnels collision_state !! generateSubdomain bytes_A
    = Some {| ws := 0; localPort := JNum 3000 |}
  ∧ live collision_state 0 = true
  ∧ subdomain <$> conns collision_state !! 0 = Some (Some (generateSubdomain bytes_A))
  ∧ subdomain <$> conns (step default_config collision_state
                           (WsMessage 1 init_frame bytes_A Completed)) !! 1
    = Some (Some (generateSubdomain bytes_A))
  ∧ subdomain <$> conns (step default_config collision_state
                           (WsMessage 1 init_frame bytes_A Completed)) !! 0
    = Some (Some (generateSubdomain bytes_A))
  ∧ tunnels (step default_config collision_state (WsMessage 1 init_frame bytes_A Completed))
      !! generateSubdomain bytes_A
    = Some {| ws := 1; localPort := JNum 3000 |}.
Proof. repeat split; vm_compute; reflexivity. Qed.

Lemma handleInit_tunnels cfg c msg r s :
  tunnels (handleInit cfg c msg r s)
  = <[generateSubdomain r :=
        {| ws := c; localPort := or_else (prop msg "localPort") (JNum 3000) |}]> (tunnels s).
Proof.
  unfold handleInit; simpl.
  match goal with |- tunnels (send ?a ?b ?c) = _ => destruct (send_same a b c) as [_ ->] end.
  done.
Qed.

Lemma handleInit_subdomain cfg c msg r s :
  subdomain <$> conns (handleInit cfg c msg r s) !! c
  = (λ _, Some (generateSubdomain r)) <$> conns s !! c.
Proof.
  unfold handleInit; simpl. rewrite lookup_alter_eq.
  unfold send. destruct (is_open _ c); simpl.
  - rewrite lookup_alter_eq. by destruct (conns s !! c).
  - by destruct (conns s !! c).
Qed.

(** C3 as amended: [handleInit] draws one twelve-character identifier and
    stores the tunnel under it without consulting the registry. Every
    other registration is untouched; the registry grows by one when the
    identifier was free and keeps its size, the earlier entry being
    replaced, when it was taken. *)
Theorem registration_without_check cfg c msg r s :
  let sub := generateSubdomain r in
  let s' := handleInit cfg c msg r s in
  String.length sub = 12
  ∧ tunnels s' !! sub
    = Some {| ws := c; localPort := or_else (prop msg "localPort") (JNum 3000) |}
  ∧ (∀ k, k ≠ sub → tunnels s' !! k = tunnels s !! k)
  ∧ (tunnels s !! sub = None → size (tunnels s') = S (size (tunnels s)))
  ∧ (is_Some (tunnels s !! sub) → size (tunnels s') = size (tunnels s))
  ∧ (is_Some (conns s !! c) → subdomain <$> conns s' !! c = Some (Some sub)).
Proof.
  intros sub s'. subst s'. rewrite handleInit_tunnels. fold sub.
  split; [apply generateSubdomain_length|].
  split; [apply lookup_insert_eq|].
  split; [intros k Hne; by apply lookup_insert_ne|].
  split; [intros Hn; by apply map_size_insert_None|].
  split.
  - intros Hs. by apply map_size_insert_Some.
  - intros [k Hk]. rewrite handleInit_subdomain, Hk. done.
Qed.

Lemma registration_without_check_witness :
  size (tunnels (handleInit default_config 1 (JObj [("type", JStr "init")]) bytes_A
                   collision_state)) = 1
  ∧ size (tunnels (handleInit default_config 0 (JObj [("type", JStr "init")]) bytes_A
                     initial)) = 1.
Proof.
  split.
  - destruct (registration_without_check default_config 1 (JObj [("type", JStr "init")])
                bytes_A collision_state) as (_ & _ & _ & _ & Hsame & _).
    rewrite Hsame; [vm_compute; reflexivity|].
    vm_compute. eexists; reflexivity.
  - destruct (registration_without_check default_config 0 (JObj [("type", JStr "init")])
                bytes_A initial) as (_ & _ & _ & Hnew & _).
    rewrite Hnew; [vm_compute; reflexivity|]. vm_compute; reflexivity.
Defined.

(** *** Messages before the handshake *)

(** Counterexample to C4 as stated: a [pong] received on a socket that
    has not sent [init] is accepted; the state, and with it the socket,
    is left as it was. *)
Lemma pong_before_handshake_accepted :
  subdomain <$> conns awaiting_state !! 0 = Some None
  ∧ tunnels awaiting_state = ∅
  ∧ step default_config awaiting_state (WsMessage 0 pong_frame bytes_A Completed) = awaiting_state
  ∧ readyState <$> conns (step default_config awaiting_state
                            (WsMessage 0 pong_frame bytes_A Completed)) !! 0
    = Some OPEN.
Proof. repeat split; vm_compute; reflexivity. Qed.

Lemma handleResponse_conns msg w s :
  match handleResponse msg w s with
  | Returned s' | Raised s' =>
      conns s' = conns s ∧ tunnels s' = tunnels s ∧ next_conn s' = next_conn s
  end.
Proof.
  unfold handleResponse. destruct (pending_get s (prop msg "id")) as [[k h]|]; [|done].
  by destruct w.
Qed.

Lemma ws_close_open c k s :
  conns s !! c = Some k → readyState k = OPEN →
  readyState <$> conns (ws_close c s) !! c = Some CLOSING.
Proof.
  intros Hk Ho. unfold ws_close; simpl. rewrite lookup_alter_eq, Hk; simpl. by rewrite Ho.
Qed.

(** On any socket, the handler calls [ws.close()] exactly on the frames
    of [throws]; on the others the socket's state stays what it was. *)
Lemma throws_readyState cfg c data r w s k :
  conns s !! c = Some k →
  readyState <$> conns (on_message cfg c data r w s) !! c
  = Some (if throws s data w
          then match readyState k with CONNECTING | OPEN => CLOSING | st => st end
          else readyState k).
Proof.
  intros Hk.
  assert (Hclose : ∀ s0, conns s0 = conns s →
    readyState <$> conns (ws_close c s0) !! c
    = Some (match readyState k with CONNECTING | OPEN => CLOSING | st => st end)).
  { intros s0 E. unfold ws_close; simpl. rewrite lookup_alter_eq, E, Hk; simpl.
    destruct (readyState k) eqn:Er; simpl; congruence. }
  assert (Hsame : readyState <$> conns s !! c = Some (readyState k)) by by rewrite Hk.
  unfold on_message. destruct data as [|msg]; [by apply Hclose|].
  destruct msg as [| | | | |props]; try (by destruct w); [by apply Hclose|].
  cbn [throws]. unfold refused, is_response. cbn [get_prop].
  destruct (assoc "type" props) as [[| | |ty| |]|]; try (by destruct w).
  destruct (String.eqb_spec ty "init") as [->|Hni].
  { replace (if _ : bool then _ else readyState k) with (readyState k) by by destruct w.
    unfold handleInit. cbn [conns set_conns]. rewrite lookup_alter_eq. unfold send.
    destruct (is_open _ c); cbn [conns set_conns set_tunnels set_intervals];
      [rewrite lookup_alter_eq|]; by rewrite Hk. }
  destruct (String.eqb ty "response"); [|by destruct w].
  unfold handleResponse.
  destruct (pending_get s (prop (JObj props) "id")) as [[k0 h0]|]; [|by destruct w].
  destruct w; [done|]. by apply Hclose.
Qed.

(** C4 as amended: on an open socket that has not completed the
    handshake, a message other than [init] closes the channel exactly
    when handling it throws: the frame does not parse, it parses to
    [null], or it is a [response] for an id in the pending table whose
    status, headers or body Node refuses. Every other such message leaves
    the socket open and unregistered and the registry unchanged. *)
Theorem only_unreadable_frames_close cfg c data r w s k :
  conns s !! c = Some k →
  readyState k = OPEN →
  subdomain k = None →
  is_init data = false →
  let s' := step cfg s (WsMessage c data r w) in
  if throws s data w
  then readyState <$> conns s' !! c = Some CLOSING
  else readyState <$> conns s' !! c = Some OPEN
       ∧ subdomain <$> conns s' !! c = Some None
       ∧ tunnels s' = tunnels s.
Proof.
  intros Hk Ho Hsub Hni s'. subst s'. cbn [step].
  assert (Hlive : live s c = true) by (unfold live; by rewrite Hk, Ho).
  rewrite Hlive. unfold on_message.
  destruct data as [|msg]; simpl.
  { by apply (ws_close_open c k). }
  assert (Hsame : readyState <$> conns s !! c = Some OPEN
                  ∧ subdomain <$> conns s !! c = Some None ∧ tunnels s = tunnels s).
  { rewrite Hk; simpl. by rewrite Ho, Hsub. }
  destruct msg as [| | | | |props]; simpl; try (by destruct w).
  { by apply (ws_close_open c k). }
  unfold refused, is_response. simpl in *.
  destruct (assoc "type" props) as [[| | |ty| |]|]; try (by destruct w).
  rewrite Hni. destruct (String.eqb ty "response"); [|by destruct w].
  unfold handleResponse, prop. simpl.
  destruct (pending_get s (assoc "id" props)) as [[k0 h0]|]; [|by destruct w].
  destruct w; simpl; [done|].
  rewrite lookup_alter_eq, Hk; simpl. by rewrite Ho.
Qed.

Lemma only_unreadable_frames_close_witness :
  readyState <$> conns (step default_config awaiting_state
        (WsMessage 0 Malformed bytes_A Completed)) !! 0 = Some CLOSING
  ∧ readyState <$> conns (step default_config awaiting_state
        (WsMessage 0 (Parsed response_A) bytes_A Completed)) !! 0 = Some OPEN
  ∧ readyState <$> conns (step default_config second_socket_state
        (WsMessage 1 (Parsed response_no_status) bytes_A Refused)) !! 1 = Some CLOSING.
Proof.
  split; [|split].
  - apply (only_unreadable_frames_close default_config 0 Malformed bytes_A Completed
             awaiting_state
             {| remoteAddress := "127.0.0.1"; readyState := OPEN; subdomain := None;
                pingInterval := None; outbox := [] |}); reflexivity.
  - apply (only_unreadable_frames_close default_config 0 (Parsed response_A) bytes_A
             Completed awaiting_state
             {| remoteAddress := "127.0.0.1"; readyState := OPEN; subdomain := None;
                pingInterval := None; outbox := [] |}); reflexivity.
  - assert (Ht : throws second_socket_state (Parsed response_no_status) Refused = true)
      by (vm_compute; reflexivity).
    pose proof (only_unreadable_frames_close default_config 1 (Parsed response_no_status)
             bytes_A Refused second_socket_state
             {| remoteAddress := "127.0.0.2"; readyState := OPEN; subdomain := None;
                pingInterval := None; outbox := [] |}
             ltac:(vm_compute; reflexivity) eq_refl eq_refl eq_refl) as H.
    cbv zeta in H. rewrite Ht in H. exact H.
Defined.

(** *** Public requests *)

(** Counterexample to C8 as stated: a request for /_health whose
    identifier zzzzzz is not registered is answered 200, not 404. *)
Lemma health_probe_unregistered_is_200 :
  extract_subdomain (host_of health_probe) = "zzzzzz"
  ∧ tunnels initial !! "zzzzzz" = None
  ∧ sink_log (step default_config initial (HttpRequest health_probe 0 "0.5")) 0
    = [{| status := Some (JNum 200);
          headers := Some (JObj [("Content-Type", JStr "application/json")]);
          body := Stringified (JObj [("status", JStr "ok"); ("active_tunnels", JNum 0);
                                     ("pending_requests", JNum 0)]) |}].
Proof. repeat split; vm_compute; reflexivity. Qed.

Lemma fresh_write_log s r :
  inv s → sink_log (write (next_req s) r (alloc_req s)) (next_req s) = [r].
Proof.
  intros I. rewrite sink_log_write_eq.
  change (sink_log (alloc_req s) (next_req s)) with (sink_log s (next_req s)).
  destruct (inv_fresh s I (next_req s)) as (Hs & _); [done|].
  by rewrite (sink_log_fresh s _ Hs).
Qed.

(** C8 as amended: for a public request whose path is not /_health, an
    identifier without a registered tunnel is answered 404 with a body
    that gives the number of active tunnels, and an identifier whose
    tunnel's socket is not open is answered 503; in both cases that is
    the caller's only answer, nothing is sent to any client and nothing
    is registered. *)
Theorem unrouted_request_rejected cfg req now rnd s :
  reachable cfg s →
  req_url req ≠ "/_health" →
  let sub := extract_subdomain (host_of req) in
  let s' := step cfg s (HttpRequest req now rnd) in
  (tunnels s !! sub = None →
     sink_log s' (next_req s)
     = [plain 404 ("Tunnel not found: " +:+ sub +:+ nl +:+ nl +:+
                   "Active tunnels: " +:+ show_nat (size (tunnels s)))]
     ∧ not_forwarded s s')
  ∧ (∀ t, tunnels s !! sub = Some t → is_open s (ws t) = false →
     sink_log s' (next_req s) = [plain 503 "Tunnel unavailable"]
     ∧ not_forwarded s s').
Proof.
  intros Hr Hurl sub s'. pose proof (reachable_inv cfg s Hr) as I.
  subst s'. cbn [step]. unfold on_request.
  destruct (String.eqb_spec (req_url req) "/_health") as [|_]; [done|].
  change (tunnels (alloc_req s)) with (tunnels s). fold sub.
  split.
  - intros ->. split; [by apply fresh_write_log|done].
  - intros t -> Hopen. unfold forwardRequest, is_open in *.
    change (conns (alloc_req s)) with (conns s).
    destruct (conns s !! ws t) as [k|].
    + rewrite Hopen. split; [by apply fresh_write_log|done].
    + split; [by apply fresh_write_log|done].
Qed.

Lemma unrouted_request_rejected_witness :
  sink_log (step default_config closing_state (HttpRequest unknown_host 0 "0.5")) 0
  = [plain 404 ("Tunnel not found: zzzzzz" +:+ nl +:+ nl +:+ "Active tunnels: 1")]
  ∧ sink_log (step default_config closing_state (HttpRequest get_root 0 "0.5")) 0
    = [plain 503 "Tunnel unavailable"].
Proof.
  split.
  - apply (unrouted_request_rejected default_config unknown_host 0 "0.5" closing_state
             closing_reachable).
    + discriminate.
    + vm_compute; reflexivity.
  - refine (proj1 (proj2 (unrouted_request_rejected default_config get_root 0 "0.5"
             closing_state closing_reachable _) {| ws := 0; localPort := JNum 3000 |} _ _)).
    + discriminate.
    + vm_compute; reflexivity.
    + vm_compute; reflexivity.
Defined.

Lemma empty_not_registered s : inv s → tunnels s !! "" = None.
Proof.
  intros I. destruct (tunnels s !! "") as [t|] eqn:E; [|done].
  by apply (inv_keys s I) in E.
Qed.

(** C9: in every reachable state a request without a Host header is
    handled: its identifier is the empty string, which is not registered,
    and unless its path is /_health it is answered 404; a request for
    /_health is answered 200 with the health report whatever its
    headers. *)
Theorem hostless_request_handled cfg req now rnd s :
  reachable cfg s →
  let s' := step cfg s (HttpRequest req now rnd) in
  (assoc "host" (req_headers req) = None → req_url req ≠ "/_health" →
     extract_subdomain (host_of req) = ""
     ∧ tunnels s !! "" = None
     ∧ sink_log s' (next_req s)
       = [plain 404 ("Tunnel not found: " +:+ nl +:+ nl +:+
                     "Active tunnels: " +:+ show_nat (size (tunnels s)))])
  ∧ (req_url req = "/_health" →
     sink_log s' (next_req s)
     = [{| status := Some (JNum 200);
           headers := Some (JObj [("Content-Type", JStr "application/json")]);
           body := Stringified (JObj
             [("status", JStr "ok");
              ("active_tunnels", JNum (Z.of_nat (size (tunnels s))));
              ("pending_requests", JNum (Z.of_nat (size (pendingResponses s))))]) |}]).
Proof.
  intros Hr s'. pose proof (reachable_inv cfg s Hr) as I.
  subst s'. cbn [step]. unfold on_request. split.
  - intros Hhost Hurl. unfold host_of. rewrite Hhost.
    change (extract_subdomain "") with "".
    split; [done|]. split; [by apply empty_not_registered|].
    destruct (String.eqb_spec (req_url req) "/_health") as [|_]; [done|].
    change (tunnels (alloc_req s)) with (tunnels s).
    rewrite (empty_not_registered s I). by apply fresh_write_log.
  - intros ->. simpl String.eqb. cbv iota. by apply fresh_write_log.
Qed.

Lemma hostless_request_handled_witness :
  sink_log (step default_config closing_state (HttpRequest hostless 0 "0.5")) 0
  = [plain 404 ("Tunnel not found: " +:+ nl +:+ nl +:+ "Active tunnels: 1")]
  ∧ status <$> sink_log (step default_config closing_state
                           (HttpRequest hostless_health 0 "0.5")) 0
    = [Some (JNum 200)].
Proof.
  split.
  - refine (proj2 (proj2 (proj1 (hostless_request_handled default_config hostless 0 "0.5"
              closing_state closing_reachable) _ _))).
    + reflexivity.
    + discriminate.
  - pose proof (proj2 (hostless_request_handled default_config hostless_health 0 "0.5"
              closing_state closing_reachable) eq_refl) as H.
    change (next_req closing_state) with 0 in H. by rewrite H.
Defined.

End RelaySpec.

(** ** The client *)

Module ClientSpec.
Import Client.

(** *** The handlers on small inputs *)

Example delay_of_first : delay_of 0 = 1000%Z.
Proof. reflexivity. Qed.

Example delay_of_fifth : delay_of 4 = 16000%Z.
Proof. reflexivity. Qed.

Example delay_of_capped : delay_of 5 = 30000%Z.
Proof. reflexivity. Qed.

Example port_text_default : port_text None = "3000".
Proof. reflexivity. Qed.

Example port_text_given : port_text (Some "8000") = "8000".
Proof. reflexivity. Qed.

Example pong_on_ping :
  sent (on_message None (Parsed (JObj [("type", JStr "ping")])) (Rejected "") initial)
  = [JObj [("type", JStr "pong")]].
Proof. reflexivity. Qed.

Example spread_of_string :
  spread (Some (JStr "ab")) = [("0", JStr "a"); ("1", JStr "b")].
Proof. reflexivity. Qed.

(** *** Reconnecting *)

Lemma message_keeps_counter argv2 data o s :
  reconnectAttempts (on_message argv2 data o s) = reconnectAttempts s
  ∧ scheduled (on_message argv2 data o s) = scheduled s.
Proof.
  unfold on_message. destruct data as [|msg]; [done|].
  destruct (get_prop msg "type") as [[[]|]|]; try done.
  repeat case_match; try done. by destruct o.
Qed.

(** As long as no socket opens, every 'close' schedules the next delay of
    the doubling sequence and advances the counter by one. *)
Lemma run_without_open argv2 evs : ∀ s,
  forallb (λ e, negb (is_Open e)) evs = true →
  reconnectAttempts (run argv2 evs s) = reconnectAttempts s + closes evs
  ∧ scheduled (run argv2 evs s)
    = (scheduled s ++ (delay_of <$> seq (reconnectAttempts s) (closes evs)))%list.
Proof.
  induction evs as [|e evs IH]; intros s Hno; simpl.
  - split; [lia | by rewrite app_nil_r].
  - simpl in Hno. apply andb_true_iff in Hno as [He Hno].
    destruct (IH (step argv2 s e) Hno) as [IH1 IH2].
    unfold run in *. rewrite IH1, IH2. clear IH1 IH2 IH.
    destruct e; simpl in *; try done.
    + by destruct (message_keeps_counter argv2 data o s) as [-> ->].
    + split; [lia|]. by rewrite <- app_assoc.
Qed.

(** Counterexample to C5 as stated: the relay accepts the second
    connection and drops it before sending [ready]. The counter is back
    at zero as soon as the socket opens, the only message the client has
    sent is its [init], and the delay after this second failure is 1000
    again where the stated formula gives 2000. *)
Lemma reset_happens_on_open_not_ready :
  reconnectAttempts (run None [Connect; Close; Connect; Open] initial) = 0
  ∧ sent (run None failing_handshakes initial)
    = [JObj [("type", JStr "init"); ("localPort", JNum 3000)]]
  ∧ closes failing_handshakes = 2
  ∧ scheduled (run None failing_handshakes initial) !! 1%nat = Some 1000%Z
  ∧ Z.min (1000 * 2 ^ (2 - 1)) 30000 = 2000%Z.
Proof. repeat split. Qed.

(** C5 as amended: after N consecutive 'close' events with no 'open'
    among them, counted from a counter at zero, the counter is N and the
    Nth delay is min(1000 * 2^(N-1), 30000) milliseconds; the counter is
    set to zero by the 'open' event of the socket, and no message, [ready]
    included, changes it. *)
Theorem backoff_resets_on_open argv2 (evs : list event) (s : client) :
  reconnectAttempts s = 0 →
  forallb (λ e, negb (is_Open e)) evs = true →
  let s' := run argv2 evs s in
  reconnectAttempts s' = closes evs
  ∧ (∀ N, (1 ≤ N ≤ closes evs)%nat →
       scheduled s' !! (length (scheduled s) + (N - 1))%nat
       = Some (Z.min (1000 * 2 ^ (Z.of_nat N - 1)) 30000))
  ∧ reconnectAttempts (step argv2 s' Open) = 0
  ∧ (∀ data o, reconnectAttempts (step argv2 s' (Message data o)) = reconnectAttempts s').
Proof.
  intros H0 Hno s'. subst s'.
  destruct (run_without_open argv2 evs s Hno) as [Hc Hs].
  rewrite H0 in Hc, Hs. simpl in Hc.
  split; [done|]. split; [|split; [done|]].
  - intros N HN. rewrite Hs, lookup_app_r by lia.
    replace (length (scheduled s) + (N - 1) - length (scheduled s))%nat with (N - 1)%nat by lia.
    rewrite list_lookup_fmap, lookup_seq_lt by lia. simpl.
    unfold delay_of, MAX_RECONNECT_DELAY.
    replace (Z.of_nat (N - 1)) with (Z.of_nat N - 1)%Z by lia. done.
  - intros data o. apply message_keeps_counter.
Qed.

Lemma backoff_resets_on_open_witness :
  reconnectAttempts (run None six_failures initial) = 6
  ∧ scheduled (run None six_failures initial) !! 2%nat = Some 4000%Z
  ∧ scheduled (run None six_failures initial) !! 5%nat = Some 30000%Z.
Proof.
  destruct (backoff_resets_on_open None six_failures initial eq_refl eq_refl) as (Hc & Hd & _).
  split; [exact Hc|]. split.
  - apply (Hd 3%nat). simpl; lia.
  - apply (Hd 6%nat). simpl; lia.
Defined.

(** *** Answering requests *)

Lemma on_message_request argv2 msg o s :
  get_prop msg "type" = Normal (Some (JStr "request")) →
  on_message argv2 (Parsed msg) o s = handleRequest argv2 msg o s.
Proof. unfold on_message. by intros ->. Qed.

(** C7: for a [request] message the client sends exactly one message, a
    [response] with the id of the request; it carries the status, headers
    and body of the local answer when the local call succeeds, and the
    status 502 with the error's message in the body when it fails. *)
Theorem every_request_answered_once argv2 (msg : json) (o : outcome) (s : client) :
  get_prop msg "type" = Normal (Some (JStr "request")) →
  ∃ m, sent (on_message argv2 (Parsed msg) o s) = (sent s ++ [m])%list
     ∧ prop m "type" = Some (JStr "response")
     ∧ prop m "id" = prop msg "id"
     ∧ match o with
       | Resolved r =>
           prop m "status" = Some (JNum (statusCode r))
           ∧ prop m "headers" = Some (JObj (res_headers r))
           ∧ prop m "body" = Some (JStr (responseBody r))
       | Rejected message =>
           prop m "status" = Some (JNum 502)
           ∧ prop m "body" = Some (JStr ("Tunnel Error: " +:+ message))
       end.
Proof.
  intros Hty. rewrite on_message_request by done. unfold handleRequest.
  destruct o as [r|message]; simpl.
  - exists (success_msg (prop msg "id") r). split; [done|].
    unfold success_msg. by destruct (prop msg "id").
  - exists (failure_msg (prop msg "id") message). split; [done|].
    unfold failure_msg. by destruct (prop msg "id").
Qed.

Lemma every_request_answered_once_witness :
  ∃ m, sent (on_message None (Parsed request_A) (Rejected "connect ECONNREFUSED") initial)
       = ([] ++ [m])%list
     ∧ prop m "type" = Some (JStr "response")
     ∧ prop m "id" = Some (JStr "127.0.0.1-1700000000000-0.5")
     ∧ prop m "status" = Some (JNum 502)
     ∧ prop m "body" = Some (JStr "Tunnel Error: connect ECONNREFUSED").
Proof.
  exact (every_request_answered_once None request_A (Rejected "connect ECONNREFUSED")
           initial eq_refl).
Defined.

(** C10: the headers of the call made to the local service for a
    [request] message have [host] set to localhost:<localPort> and
    [x-forwarded-proto] set to https, and every other field is exactly
    the field of the request's headers. *)
Theorem forwarded_headers_frame argv2 (msg : json) (o : outcome) (s : client) :
  get_prop msg "type" = Normal (Some (JStr "request")) →
  ∃ call, forwarded (on_message argv2 (Parsed msg) o s) = (forwarded s ++ [call])%list
     ∧ assoc "host" (headers call) = Some (JStr ("localhost:" +:+ port_text argv2))
     ∧ assoc "x-forwarded-proto" (headers call) = Some (JStr "https")
     ∧ ∀ k, k ≠ "host" → k ≠ "x-forwarded-proto" →
         assoc k (headers call) = assoc k (spread (prop msg "headers")).
Proof.
  intros Hty. rewrite on_message_request by done. unfold handleRequest.
  eexists. split; [by destruct o|]. simpl. unfold forward_headers.
  split; [|split].
  - rewrite assoc_set_prop_ne by done. apply assoc_set_prop_eq.
  - apply assoc_set_prop_eq.
  - intros k Hh Hx. rewrite !assoc_set_prop_ne by done. done.
Qed.

Lemma forwarded_headers_frame_witness :
  ∃ call, forwarded (on_message (Some "3000") (Parsed request_A) (Rejected "x") initial)
          = ([] ++ [call])%list
     ∧ assoc "host" (headers call) = Some (JStr "localhost:3000")
     ∧ assoc "x-forwarded-proto" (headers call) = Some (JStr "https")
     ∧ assoc "accept" (headers call) = Some (JStr "*/*").
Proof.
  destruct (forwarded_headers_frame (Some "3000") request_A (Rejected "x") initial eq_refl)
    as (call & Hc & Hh & Hx & Hrest).
  exists call. split; [exact Hc|]. split; [exact Hh|]. split; [exact Hx|].
  rewrite (Hrest "accept"); [reflexivity|discriminate|discriminate].
Defined.

End ClientSpec.

(** * Further properties *)

(** ** The relay *)

Module RelayExtra.
Import Relay RelaySpec.

Lemma hex_val_digit n : (n < 16)%N → hex_val (hex_digit n) = n.
Proof.
  intros Hn. destruct n as [|p]; [done|].
  do 4 (try (destruct p as [p|p|]; try done)); lia.
Qed.

Lemma byte_of_nibbles (b b' : byte) :
  hex_digit (Byte.to_N b / 16) = hex_digit (Byte.to_N b' / 16) →
  hex_digit (Byte.to_N b mod 16) = hex_digit (Byte.to_N b' mod 16) →
  b = b'.
Proof.
  intros Hhi Hlo.
  pose proof (Byte.to_N_bounded b) as Hb. pose proof (Byte.to_N_bounded b') as Hb'.
  apply (f_equal hex_val) in Hhi, Hlo.
  rewrite !hex_val_digit in Hhi, Hlo
    by (try (apply N.mod_lt; lia); apply N.Div0.div_lt_upper_bound; lia).
  assert (E : Byte.to_N b = Byte.to_N b').
  { rewrite (N.div_mod (Byte.to_N b) 16), (N.div_mod (Byte.to_N b') 16) by lia. congruence. }
  apply (f_equal Byte.of_N) in E. rewrite !Byte.of_to_N in E. congruence.
Qed.

Lemma toString_hex_inj bs : ∀ bs', toString_hex bs = toString_hex bs' → bs = bs'.
Proof.
  induction bs as [|b bs IH]; intros [|b' bs'] H; simpl in H; try done.
  injection H as Hhi Hlo Hrest. f_equal; [by apply byte_of_nibbles|by apply IH].
Qed.

(** X2: different draws of [crypto.randomBytes(6)] give different identifiers: the
    hexadecimal rendering loses nothing, so two identifiers collide only when
    the six bytes do. *)
Theorem generateSubdomain_injective (r r' : random6) :
  generateSubdomain r = generateSubdomain r' → r = r'.
Proof.
  destruct r as [[[[[a b] c] d] e] f], r' as [[[[[a' b'] c'] d'] e'] f'].
  unfold generateSubdomain. intros H. apply toString_hex_inj in H.
  simpl in H. congruence.
Qed.

Lemma generateSubdomain_injective_witness :
  (xa1, xb2, xc3, xd4, xe5, xf6) = bytes_A.
Proof.
  apply (generateSubdomain_injective (xa1, xb2, xc3, xd4, xe5, xf6) bytes_A). reflexivity.
Defined.

Lemma has_char_hex c s : is_hex c = false → all_hex s = true → has_char c s = false.
Proof.
  intros Hc. induction s as [|a s IH]; [done|]. simpl.
  intros H. apply andb_true_iff in H as [Ha Hs].
  rewrite IH by done. destruct (Ascii.eqb_spec a c) as [->|]; [congruence|done].
Qed.

(** X1: every generated identifier has twelve characters, all of them digits
    or the letters a to f, hence neither a dot nor a colon. *)
Theorem generateSubdomain_shape (r : random6) :
  String.length (generateSubdomain r) = 12
  ∧ all_hex (generateSubdomain r) = true
  ∧ has_char "." (generateSubdomain r) = false
  ∧ has_char ":" (generateSubdomain r) = false.
Proof.
  assert (Hh : all_hex (generateSubdomain r) = true) by apply all_hex_toString_hex.
  split; [apply generateSubdomain_length|]. split; [done|].
  split; by apply has_char_hex.
Qed.

Lemma before_prefix sep s : String.prefix (before sep s) s = true.
Proof.
  induction s as [|a s IH]; [done|]. simpl.
  destruct (Ascii.eqb a sep); [done|]. simpl.
  destruct (ascii_dec a a); [done|congruence].
Qed.

Lemma prefix_trans a : ∀ b c,
  String.prefix a b = true → String.prefix b c = true → String.prefix a c = true.
Proof.
  induction a as [|x a IH]; intros b c Hab Hbc; [by destruct c|].
  destruct b as [|y b]; [done|]. destruct c as [|z c]; [done|]. simpl in *.
  destruct (ascii_dec x y) as [->|]; [|done].
  destruct (ascii_dec y z) as [->|]; [|done]. by apply (IH b c).
Qed.

Lemma before_has_sep sep s : has_char sep (before sep s) = false.
Proof.
  induction s as [|a s IH]; [done|]. simpl.
  destruct (Ascii.eqb a sep) eqn:E; [done|]. simpl. by rewrite E.
Qed.

Lemma before_keeps_absent c sep s : has_char c s = false → has_char c (before sep s) = false.
Proof.
  induction s as [|a s IH]; [done|]. simpl. intros H.
  apply orb_false_iff in H as [Ha Hs].
  destruct (Ascii.eqb a sep); [done|]. simpl. by rewrite Ha, IH.
Qed.

Lemma before_absent sep s : has_char sep s = false → before sep s = s.
Proof.
  induction s as [|a s IH]; [done|]. simpl. intros H.
  apply orb_false_iff in H as [-> Hs]. by rewrite IH.
Qed.

Lemma before_app sep s rest :
  has_char sep s = false → before sep (s +:+ String sep rest) = s.
Proof.
  induction s as [|a s IH]; simpl.
  - by rewrite Ascii.eqb_refl.
  - intros H. apply orb_false_iff in H as [-> Hs]. by rewrite IH.
Qed.

Lemma before_app_other sep s rest :
  has_char sep s = false → before sep (s +:+ rest) = s +:+ before sep rest.
Proof.
  induction s as [|a s IH]; simpl; [done|].
  intros H. apply orb_false_iff in H as [-> Hs]. by rewrite IH.
Qed.

(** X3: the identifier taken from a Host value is a prefix of it and holds
    neither a dot nor a colon; a value without either is taken whole. *)
Theorem extract_subdomain_label (host : string) :
  String.prefix (extract_subdomain host) host = true
  ∧ has_char "." (extract_subdomain host) = false
  ∧ has_char ":" (extract_subdomain host) = false
  ∧ (has_char "." host = false → has_char ":" host = false →
     extract_subdomain host = host).
Proof.
  unfold extract_subdomain. split; [|split; [|split]].
  - eapply prefix_trans; apply before_prefix.
  - apply before_keeps_absent, before_has_sep.
  - apply before_has_sep.
  - intros Hd Hc. by rewrite (before_absent "." host), before_absent.
Qed.

Lemma extract_subdomain_label_witness : extract_subdomain "localhost" = "localhost".
Proof.
  apply (proj2 (proj2 (proj2 (extract_subdomain_label "localhost")))); reflexivity.
Defined.

(** X4: a label without dot or colon is recovered from a Host value in which
    a dot or a colon follows it, whatever comes after. *)
Theorem extract_subdomain_first_label (sub rest : string) :
  has_char "." sub = false → has_char ":" sub = false →
  extract_subdomain (sub +:+ "." +:+ rest) = sub
  ∧ extract_subdomain (sub +:+ ":" +:+ rest) = sub.
Proof.
  intros Hd Hc. unfold extract_subdomain. split.
  - change (sub +:+ "." +:+ rest) with (sub +:+ String "." rest).
    rewrite before_app by done. by apply before_absent.
  - rewrite (before_app_other "." sub) by done.
    change (":" +:+ rest) with (String ":" rest). cbn [before Ascii.eqb Bool.eqb].
    by rewrite before_app.
Qed.

Lemma extract_subdomain_first_label_witness :
  extract_subdomain ("abc123" +:+ "." +:+ "example.com:8081") = "abc123"
  ∧ extract_subdomain ("localhost" +:+ ":" +:+ "8081") = "localhost".
Proof.
  split.
  - exact (proj1 (extract_subdomain_first_label "abc123" "example.com:8081" eq_refl eq_refl)).
  - exact (proj2 (extract_subdomain_first_label "localhost" "8081" eq_refl eq_refl)).
Defined.

Lemma announced_host_label cfg r :
  extract_subdomain (announced_host cfg (generateSubdomain r)) = generateSubdomain r.
Proof.
  unfold announced_host.
  assert (Hh : all_hex (generateSubdomain r) = true) by apply all_hex_toString_hex.
  unfold extract_subdomain.
  change (generateSubdomain r +:+ "." +:+ BASE_DOMAIN cfg +:+ ":" +:+ HTTP_PORT cfg)
    with (generateSubdomain r +:+ String "." (BASE_DOMAIN cfg +:+ ":" +:+ HTTP_PORT cfg)).
  rewrite before_app by by apply has_char_hex.
  apply before_absent. by apply has_char_hex.
Qed.

(** X5: the URL sent in [ready] is http:// followed by a host from which the
    public handler extracts exactly the identifier the tunnel was given. *)
Theorem announced_url_routes_back cfg r :
  tunnel_url cfg (generateSubdomain r) = "http://" +:+ announced_host cfg (generateSubdomain r)
  ∧ extract_subdomain (announced_host cfg (generateSubdomain r)) = generateSubdomain r.
Proof. split; [done|apply announced_host_label]. Qed.

Lemma is_open_conn s c k : conns s !! c = Some k → readyState k = OPEN → is_open s c = true.
Proof. intros Hk Ho. unfold is_open. rewrite Hk. by apply bool_decide_eq_true. Qed.

Lemma live_conn s c k : conns s !! c = Some k → readyState k = OPEN → live s c = true.
Proof. intros Hk Ho. unfold live. by rewrite Hk, Ho. Qed.

Lemma on_message_init cfg c msg r w s :
  get_prop msg "type" = Normal (Some (JStr "init")) →
  on_message cfg c (Parsed msg) r w s = handleInit cfg c msg r s.
Proof. unfold on_message. by intros ->. Qed.

Lemma handleInit_conn cfg c msg r s k :
  conns s !! c = Some k → readyState k = OPEN →
  conns (handleInit cfg c msg r s) !! c
  = Some {| remoteAddress := remoteAddress k; readyState := OPEN;
            subdomain := Some (generateSubdomain r);
            pingInterval := Some (next_interval s);
            outbox := (outbox k ++ [ready_msg (tunnel_url cfg (generateSubdomain r))
                                              (generateSubdomain r)])%list |}.
Proof.
  intros Hk Ho. unfold handleInit. cbn [conns set_conns set_intervals].
  rewrite lookup_alter_eq. unfold send.
  rewrite (is_open_conn _ c k) by done. cbn [conns set_conns set_tunnels].
  rewrite lookup_alter_eq, Hk. simpl. by rewrite Ho.
Qed.

Lemma handleInit_intervals cfg c msg r s :
  intervals (handleInit cfg c msg r s) = <[next_interval s := c]> (intervals s).
Proof. unfold handleInit, send. simpl. by destruct (is_open _ c). Qed.


Lemma handleInit_other cfg c msg r s c' :
  c' ≠ c → conns (handleInit cfg c msg r s) !! c' = conns s !! c'.
Proof.
  intros Hne. unfold handleInit. cbn [conns set_conns set_intervals].
  rewrite lookup_alter_ne by done. unfold send.
  destruct (is_open _ c); cbn [conns set_conns set_tunnels]; [|done].
  by rewrite lookup_alter_ne.
Qed.

Lemma handleInit_same_requests cfg c msg r s : same_requests s (handleInit cfg c msg r s).
Proof. unfold handleInit, send, same_requests. simpl. by destruct (is_open _ c). Qed.

(** X6: an [init] on an open socket appends exactly one message to that
    socket, the [ready] with the URL and the identifier, and leaves the other
    sockets and the request tables as they were. *)
Theorem init_answered_with_ready cfg c msg r w s k :
  conns s !! c = Some k →
  readyState k = OPEN →
  get_prop msg "type" = Normal (Some (JStr "init")) →
  let sub := generateSubdomain r in
  let s' := step cfg s (WsMessage c (Parsed msg) r w) in
  outbox_of s' c
  = (outbox k ++ [JObj [("type", JStr "ready");
                        ("url", JStr ("http://" +:+ sub +:+ "." +:+ BASE_DOMAIN cfg
                                      +:+ ":" +:+ HTTP_PORT cfg));
                        ("subdomain", JStr sub)]])%list
  ∧ (∀ c', c' ≠ c → conns s' !! c' = conns s !! c')
  ∧ same_requests s s'.
Proof.
  intros Hk Ho Hty sub s'. subst s'. cbn [step].
  rewrite (live_conn s c k), on_message_init by done.
  split; [|split].
  - unfold outbox_of. by rewrite (handleInit_conn cfg c msg r s k).
  - intros c' Hne. by apply handleInit_other.
  - apply handleInit_same_requests.
Qed.

Lemma init_answered_with_ready_witness :
  outbox_of (step default_config awaiting_state (WsMessage 0 init_frame bytes_A Completed)) 0
  = [JObj [("type", JStr "ready");
           ("url", JStr "http://a1b2c3d4e5f6.tunnel.localhost:8081");
           ("subdomain", JStr "a1b2c3d4e5f6")]].
Proof.
  refine (proj1 (init_answered_with_ready default_config 0
            (JObj [("type", JStr "init"); ("localPort", JNum 3000)]) bytes_A Completed
            awaiting_state
            {| remoteAddress := "127.0.0.1"; readyState := OPEN; subdomain := None;
               pingInterval := None; outbox := [] |} _ _ _)); reflexivity.
Defined.

(** X7: after an [init] on an open socket, a public request sent to the
    announced host for a path other than /_health is accepted for that
    socket: its body is awaited under the id built from the socket's remote
    address, and nothing is answered or sent yet. *)
Theorem announced_host_reaches_tunnel cfg c msg r w s k req now rnd :
  conns s !! c = Some k →
  readyState k = OPEN →
  get_prop msg "type" = Normal (Some (JStr "init")) →
  assoc "host" (req_headers req) = Some (announced_host cfg (generateSubdomain r)) →
  req_url req ≠ "/_health" →
  let s1 := step cfg s (WsMessage c (Parsed msg) r w) in
  let s2 := step cfg s1 (HttpRequest req now rnd) in
  collecting s2 !! next_req s
  = Some {| in_ws := c; in_id := request_id (remoteAddress k) now rnd;
            in_req := req; in_body := "" |}
  ∧ sinks s2 = sinks s
  ∧ conns s2 = conns s1.
Proof.
  intros Hk Ho Hty Hhost Hurl s1 s2. subst s1 s2. cbn [step].
  rewrite (live_conn s c k), on_message_init by done.
  destruct (handleInit_same_requests cfg c msg r s) as (_ & _ & Hs & Hc & Hn).
  unfold on_request. rewrite Hn.
  destruct (String.eqb_spec (req_url req) "/_health") as [|_]; [done|].
  unfold host_of. rewrite Hhost.
  rewrite (announced_host_label cfg r).
  change (tunnels (alloc_req ?x)) with (tunnels x).
  rewrite handleInit_tunnels, lookup_insert_eq.
  unfold forwardRequest. cbn [ws]. change (conns (alloc_req ?x)) with (conns x).
  rewrite (handleInit_conn cfg c msg r s k) by done. cbn [readyState remoteAddress].
  rewrite bool_decide_eq_true_2 by done.
  split; [|split].
  - cbn [collecting set_collecting]. apply lookup_insert_eq.
  - exact Hs.
  - done.
Qed.

Lemma announced_host_reaches_tunnel_witness :
  collecting (step default_config
                (step default_config awaiting_state (WsMessage 0 init_frame bytes_A Completed))
                (HttpRequest get_root 1700000000000 "0.5")) !! 0
  = Some {| in_ws := 0; in_id := id_A; in_req := get_root; in_body := "" |}.
Proof.
  refine (proj1 (announced_host_reaches_tunnel default_config 0
            (JObj [("type", JStr "init"); ("localPort", JNum 3000)]) bytes_A Completed
            awaiting_state
            {| remoteAddress := "127.0.0.1"; readyState := OPEN; subdomain := None;
               pingInterval := None; outbox := [] |} get_root 1700000000000 "0.5"
            _ _ _ _ _)); try reflexivity. discriminate.
Defined.

Lemma send_open c m s k :
  conns s !! c = Some k → readyState k = OPEN →
  conns (send c m s) = <[c := push_outbox m k]> (conns s).
Proof.
  intros Hk Ho. unfold send. rewrite (is_open_conn s c k) by done. simpl.
  apply map_eq. intros c'. destruct (decide (c = c')) as [<-|Hne].
  - by rewrite lookup_alter_eq, lookup_insert_eq, Hk.
  - by rewrite lookup_alter_ne, lookup_insert_ne.
Qed.

Lemma send_not_open c m s : is_open s c = false → send c m s = s.
Proof. unfold send. by intros ->. Qed.

(** X8: the timer started by [init] sends one [ping] to its socket, and to no
    other, each time it fires; the 'close' of the socket clears it, after
    which a firing changes nothing. *)
Theorem keepalive_follows_socket cfg c msg r w s k :
  conns s !! c = Some k →
  readyState k = OPEN →
  get_prop msg "type" = Normal (Some (JStr "init")) →
  let i := next_interval s in
  let s1 := step cfg s (WsMessage c (Parsed msg) r w) in
  let s2 := step cfg s1 (WsClose c) in
  outbox_of (step cfg s1 (PingTick i)) c = (outbox_of s1 c ++ [JObj [("type", JStr "ping")]])%list
  ∧ (∀ c', c' ≠ c → conns (step cfg s1 (PingTick i)) !! c' = conns s1 !! c')
  ∧ intervals s2 !! i = None
  ∧ step cfg s2 (PingTick i) = s2.
Proof.
  intros Hk Ho Hty i s1 s2. subst s1 s2. cbn [step].
  rewrite (live_conn s c k), on_message_init by done.
  pose proof (handleInit_conn cfg c msg r s k Hk Ho) as Hc.
  set (s1 := handleInit cfg c msg r s) in *.
  assert (Hi : intervals s1 !! i = Some c).
  { unfold s1. rewrite handleInit_intervals. apply lookup_insert_eq. }
  assert (Hlive : live s1 c = true) by (unfold live; by rewrite Hc).
  rewrite Hlive.
  split; [|split].
  - unfold ping_tick. rewrite Hi. unfold outbox_of.
    erewrite send_open by (try exact Hc; done). by rewrite lookup_insert_eq, Hc.
  - intros c' Hne. unfold ping_tick. rewrite Hi.
    erewrite send_open by (try exact Hc; done). by rewrite lookup_insert_ne.
  - assert (Hd : intervals (on_close c s1) !! i = None).
    { unfold on_close. rewrite Hc. cbn [subdomain pingInterval]. simpl.
      apply lookup_delete_eq. }
    split; [done|]. unfold ping_tick. by rewrite Hd.
Qed.

Lemma keepalive_follows_socket_witness :
  outbox_of (step default_config
               (step default_config awaiting_state (WsMessage 0 init_frame bytes_A Completed))
               (PingTick 0)) 0
  = (outbox_of (step default_config awaiting_state (WsMessage 0 init_frame bytes_A Completed)) 0
     ++ [JObj [("type", JStr "ping")]])%list.
Proof.
  refine (proj1 (keepalive_follows_socket default_config 0
            (JObj [("type", JStr "init"); ("localPort", JNum 3000)]) bytes_A Completed
            awaiting_state
            {| remoteAddress := "127.0.0.1"; readyState := OPEN; subdomain := None;
               pingInterval := None; outbox := [] |} _ _ _)); reflexivity.
Defined.

Lemma run_app cfg evs evs' s : run cfg (evs ++ evs')%list s = run cfg evs' (run cfg evs s).
Proof. unfold run. apply foldl_app. Qed.

Lemma append_assoc (a b c : string) : (a +:+ b) +:+ c = a +:+ (b +:+ c).
Proof.
  induction a as [|x a IH]; [done|].
  change (String x ((a +:+ b) +:+ c) = String x (a +:+ (b +:+ c))). by rewrite IH.
Qed.

Lemma append_empty_r (a : string) : a +:+ "" = a.
Proof.
  induction a as [|x a IH]; [done|].
  change (String x (a +:+ "") = String x a). by rewrite IH.
Qed.

Lemma data_collected cfg h chunks : ∀ s f,
  collecting s !! h = Some f →
  collecting (run cfg (data_events h chunks) s) !! h
  = Some (with_body f (in_body f +:+ concat_chunks chunks))
  ∧ tunnels (run cfg (data_events h chunks) s) = tunnels s
  ∧ conns (run cfg (data_events h chunks) s) = conns s
  ∧ pendingResponses (run cfg (data_events h chunks) s) = pendingResponses s
  ∧ timers (run cfg (data_events h chunks) s) = timers s
  ∧ sinks (run cfg (data_events h chunks) s) = sinks s.
Proof.
  induction chunks as [|c chunks IH]; intros s f Hf.
  - simpl. rewrite append_empty_r, Hf. by destruct f.
  - cbn [data_events fmap list_fmap run foldl step].
    assert (Hc : collecting (on_data h c s) !! h = Some (with_body f (in_body f +:+ c))).
    { unfold on_data. cbn [collecting set_collecting]. by rewrite lookup_alter_eq, Hf. }
    destruct (IH (on_data h c s) _ Hc) as (E1 & E2 & E3 & E4 & E5 & E6).
    unfold run, data_events in *. rewrite E1, E2, E3, E4, E5, E6.
    cbn [with_body in_body in_ws in_id in_req concat_chunks].
    by rewrite append_assoc.
Qed.

(** X9: when the body of an accepted request has been read, the chunks
    concatenated in order, the relay sends one [request] on the tunnel's open
    socket carrying the id, method, path, headers and the body (left out
    when empty), stores the entry under the id and arms a 30000 ms timer;
    the caller has no answer yet. *)
Theorem request_forwarded_at_end cfg h f chunks s k :
  collecting s !! h = Some f →
  conns s !! in_ws f = Some k →
  readyState k = OPEN →
  let body := in_body f +:+ concat_chunks chunks in
  let s' := run cfg (data_events h chunks ++ [HttpEnd h])%list s in
  outbox_of s' (in_ws f)
  = (outbox k ++
     [JObj ([("type", JStr "request");
             ("id", JStr (in_id f));
             ("method", JStr (req_method (in_req f)));
             ("path", JStr (req_url (in_req f)));
             ("headers", JObj (prod_map id JStr <$> req_headers (in_req f)))]
            ++ (if String.eqb body "" then [] else [("body", JStr body)]))])%list
  ∧ pendingResponses s' = <[in_id f := h]> (pendingResponses s)
  ∧ timers s' = <[h := {| timer_id := in_id f; timer_delay := 30000 |}]> (timers s)
  ∧ collecting s' !! h = None
  ∧ sinks s' = sinks s.
Proof.
  intros Hf Hk Ho body s'. subst s'. rewrite run_app.
  destruct (data_collected cfg h chunks s f Hf) as (E1 & _ & E3 & E4 & E5 & E6).
  set (s1 := run cfg (data_events h chunks) s) in *.
  cbn [run foldl step]. unfold on_end. rewrite E1. cbn [in_ws in_id with_body].
  assert (Hk1 : conns s1 !! in_ws f = Some k) by by rewrite E3.
  split; [|split; [|split; [|split]]].
  - unfold outbox_of. cbn [conns set_collecting set_pending set_timers].
    rewrite (send_open _ _ s1 k) by done. by rewrite lookup_insert_eq.
  - cbn [pendingResponses set_collecting set_pending set_timers].
    unfold send. destruct (is_open s1 (in_ws f)); simpl; by rewrite E4.
  - cbn [timers set_collecting set_pending set_timers].
    unfold send. destruct (is_open s1 (in_ws f)); simpl; by rewrite E5.
  - cbn [collecting set_collecting]. apply lookup_delete_eq.
  - cbn [sinks set_collecting set_pending set_timers].
    unfold send. destruct (is_open s1 (in_ws f)); simpl; by rewrite E6.
Qed.


Lemma request_forwarded_at_end_witness :
  outbox_of (run default_config (data_events 0 ["he"; "llo"] ++ [HttpEnd 0])%list
               collecting_state) 0
  = [JObj [("type", JStr "ready");
           ("url", JStr "http://a1b2c3d4e5f6.tunnel.localhost:8081");
           ("subdomain", JStr "a1b2c3d4e5f6")];
     JObj [("type", JStr "request"); ("id", JStr id_A); ("method", JStr "GET");
           ("path", JStr "/");
           ("headers", JObj [("host", JStr "a1b2c3d4e5f6.tunnel.localhost:8081")]);
           ("body", JStr "hello")]].
Proof.
  refine (proj1 (request_forwarded_at_end default_config 0
     {| in_ws := 0; in_id := id_A; in_req := get_root; in_body := "" |} ["he"; "llo"]
     collecting_state
     {| remoteAddress := "127.0.0.1"; readyState := OPEN;
        subdomain := Some "a1b2c3d4e5f6"; pingInterval := Some 0;
        outbox := [JObj [("type", JStr "ready");
                         ("url", JStr "http://a1b2c3d4e5f6.tunnel.localhost:8081");
                         ("subdomain", JStr "a1b2c3d4e5f6")]] |} _ _ _));
    vm_compute; reflexivity.
Defined.

Lemma conns_step_refl s s' : conns s' = conns s → conns_step s s'.
Proof. intros E c k' Hk'. rewrite <- E, Hk'. split; [done|by left]. Qed.

Lemma conns_step_alter f c s :
  (∀ k, outbox (f k) = outbox k ∧ (readyState (f k) = OPEN → readyState k = OPEN)) →
  conns_step s (set_conns (alter f c) s).
Proof.
  intros Hf c0 k'. cbn [conns set_conns]. rewrite lookup_alter.
  case_decide as E; [subst c0|]; intros Hk'.
  - destruct (conns s !! c) as [k|]; [|done]. injection Hk' as <-.
    split; [apply Hf|left; apply Hf].
  - rewrite Hk'. split; [done|by left].
Qed.

Lemma conns_step_send c m s : relay_msg m = true → conns_step s (send c m s).
Proof.
  intros Hm c0 k'. unfold send, is_open.
  destruct (conns s !! c) as [k|] eqn:Hk; [|by intros ->; split; [|left]].
  case_bool_decide as Ho; [|by intros ->; split; [|left]].
  cbn [conns set_conns]. rewrite lookup_alter. case_decide as E; [subst c0|].
  - rewrite Hk. intros [= <-]. split; [done|]. right. split; [done|]. by exists m.
  - intros ->. by split; [|left].
Qed.

Lemma conns_step_then_alter f c s s1 s2 :
  (∀ k, outbox (f k) = outbox k ∧ (readyState (f k) = OPEN → readyState k = OPEN)) →
  conns s2 = alter f c (conns s1) →
  conns_step s s1 → conns_step s s2.
Proof.
  intros Hf E H1 c0 k'. rewrite E, lookup_alter.
  case_decide as Ec; [subst c0|]; intros Hk'; [|by apply H1].
  destruct (conns s1 !! c) as [k1|] eqn:Hk1; [|done]. injection Hk' as <-.
  specialize (H1 c k1 Hk1). destruct (Hf k1) as [Ho Hr].
  destruct (conns s !! c) as [k|].
  - unfold outbox_step in *. rewrite Ho. destruct H1 as [H1 H2]. split; [|done].
    intros H. by apply H1, Hr.
  - by rewrite Ho.
Qed.

Lemma fail_entries_conns sub l : ∀ s,
  conns (foldr (fail_entry sub) s l) = conns s
  ∧ tunnels (foldr (fail_entry sub) s l) = tunnels s
  ∧ intervals (foldr (fail_entry sub) s l) = intervals s
  ∧ next_conn (foldr (fail_entry sub) s l) = next_conn s.
Proof.
  induction l as [|e l IH]; intros s; [done|]. simpl.
  destruct (IH s) as (E1 & E2 & E3 & E4).
  unfold fail_entry at 1 3 5 7. destruct (startsWith e.1 sub); [|done]. done.
Qed.

Lemma on_close_conns c s k :
  conns s !! c = Some k →
  conns (on_close c s) = alter (set_readyState CLOSED) c (conns s)
  ∧ tunnels (on_close c s)
    = match subdomain k with
      | Some sub => if String.eqb sub "" then tunnels s else delete sub (tunnels s)
      | None => tunnels s
      end
  ∧ next_conn (on_close c s) = next_conn s.
Proof.
  intros Hk. unfold on_close. rewrite Hk.
  destruct (subdomain k) as [sub|]; [destruct (String.eqb sub "")|];
    destruct (pingInterval k); try done; unfold fail_pending;
    cbn [conns tunnels next_conn set_intervals];
    match goal with |- context [foldr (fail_entry ?a) ?b ?l] =>
      destruct (fail_entries_conns a l b) as (-> & -> & _ & ->) end; done.
Qed.

Lemma ready_is_relay_msg url sub : relay_msg (ready_msg url sub) = true.
Proof. done. Qed.

Lemma request_is_relay_msg f : relay_msg (request_msg f) = true.
Proof. done. Qed.

Lemma handleInit_conns_step cfg c msg r s : conns_step s (handleInit cfg c msg r s).
Proof.
  eapply (conns_step_then_alter _ c s
            (send c (ready_msg (tunnel_url cfg (generateSubdomain r)) (generateSubdomain r)) s)).
  2: { unfold handleInit. cbn [conns set_conns set_intervals]. unfold send.
       change (is_open (set_tunnels ?f s) c) with (is_open s c).
       destruct (is_open s c); reflexivity. }
  - done.
  - by apply conns_step_send.
Qed.

Lemma closing_keeps_outbox k :
  outbox (match readyState k with
          | CONNECTING | OPEN => set_readyState CLOSING k
          | _ => k
          end) = outbox k
  ∧ (readyState (match readyState k with
                 | CONNECTING | OPEN => set_readyState CLOSING k
                 | _ => k
                 end) = OPEN → readyState k = OPEN).
Proof. destruct (readyState k) eqn:E; simpl; split; congruence. Qed.

Lemma ws_close_conns_step c s : conns_step s (ws_close c s).
Proof. apply conns_step_alter. apply closing_keeps_outbox. Qed.

Lemma step_conns cfg s e :
  (∀ c k, conns s !! c = Some k → (c < next_conn s)%nat) →
  conns_step s (step cfg s e).
Proof.
  intros Hfresh. destruct e; cbn [step].
  - intros c k'. unfold on_connection. cbn [conns set_conns].
    destruct (decide (next_conn s = c)) as [<-|Hne].
    + rewrite lookup_insert_eq. intros [= <-].
      destruct (conns s !! next_conn s) as [k|] eqn:Hk; [|done].
      apply Hfresh in Hk. lia.
    + rewrite lookup_insert_ne by done. intros ->. by split; [|left].
  - destruct (live s c); [|by apply conns_step_refl].
    unfold on_message. destruct data as [|msg]; [apply ws_close_conns_step|].
    destruct (get_prop msg "type") as [[[| | |ty| |]|]|]; try (by apply conns_step_refl);
      [|apply ws_close_conns_step].
    destruct (String.eqb ty "init"); [apply handleInit_conns_step|].
    destruct (String.eqb ty "response"); [|by apply conns_step_refl].
    pose proof (handleResponse_conns msg w s) as Hc.
    destruct (handleResponse msg w s) as [s1|s1]; destruct Hc as (Hc & _ & _).
    + by apply conns_step_refl.
    + eapply (conns_step_then_alter _ c s s1);
        [apply closing_keeps_outbox|reflexivity|by apply conns_step_refl].
  - destruct (live s c); [|by apply conns_step_refl].
    destruct (conns s !! c) as [k|] eqn:Hk.
    + eapply (conns_step_then_alter _ c s s); [|apply (on_close_conns c s k Hk)|by apply conns_step_refl].
      done.
    + unfold on_close. rewrite Hk. by apply conns_step_refl.
  - by apply conns_step_refl.
  - unfold ping_tick. destruct (intervals s !! i); [by apply conns_step_send|by apply conns_step_refl].
  - apply conns_step_refl. unfold on_request.
    destruct (String.eqb _ _); [done|].
    destruct (tunnels _ !! _) as [t|]; [|done].
    unfold forwardRequest. destruct (conns _ !! ws t) as [k|]; [|done].
    by destruct (bool_decide _).
  - by apply conns_step_refl.
  - unfold on_end. destruct (collecting s !! h) as [f|]; [|by apply conns_step_refl].
    intros c k'. cbn [conns set_collecting set_pending set_timers].
    by apply conns_step_send.
  - apply conns_step_refl. unfold on_timeout.
    destruct (timers s !! h); [|done]. by destruct (headersSent _ h).
Qed.

Lemma registry_ok_initial : registry_ok initial.
Proof. split; intros ? ?; simpl; by rewrite lookup_empty. Qed.

Lemma registry_ok_same s s' :
  conns s' = conns s → tunnels s' = tunnels s → next_conn s' = next_conn s →
  registry_ok s → registry_ok s'.
Proof.
  intros Ec Et En R. split.
  - intros c k. rewrite Ec, En. apply R.
  - intros key t. rewrite Et. apply R.
  - intros key t. rewrite Et, Ec. apply R.
Qed.

Lemma alter_is_Some {A} (f : A → A) c (m : gmap nat A) c0 :
  is_Some (alter f c m !! c0) ↔ is_Some (m !! c0).
Proof. rewrite lookup_alter. case_decide; [subst|done]. apply fmap_is_Some. Qed.

Lemma registry_ok_dom s s' :
  (∀ c, is_Some (conns s' !! c) ↔ is_Some (conns s !! c)) →
  (∀ key t, tunnels s' !! key = Some t → tunnels s !! key = Some t) →
  next_conn s' = next_conn s →
  registry_ok s → registry_ok s'.
Proof.
  intros Ec Et En R. split.
  - intros c0 k Hk. rewrite En. destruct (proj1 (Ec c0)) as [k0 Hk0]; [by eexists|].
    by apply (reg_conns s R c0 k0).
  - intros key t Hk. by apply (reg_keys s R key t), Et.
  - intros key t Hk. apply Ec. apply Et in Hk. by apply (reg_ws s R key t).
Qed.

Lemma send_dom c m s c0 : is_Some (conns (send c m s) !! c0) ↔ is_Some (conns s !! c0).
Proof. unfold send. destruct (is_open s c); [apply alter_is_Some|done]. Qed.

Lemma send_next_conn c m s : next_conn (send c m s) = next_conn s.
Proof. unfold send. by destruct (is_open s c). Qed.

Lemma registry_ok_send c m s : registry_ok s → registry_ok (send c m s).
Proof.
  intros R. apply (registry_ok_dom s); [apply send_dom| |apply send_next_conn|done].
  intros key t. by rewrite (proj2 (send_same c m s)).
Qed.

Lemma registry_ok_handleInit cfg c msg r s :
  is_Some (conns s !! c) → registry_ok s → registry_ok (handleInit cfg c msg r s).
Proof.
  intros Hc R.
  assert (Hd : ∀ c0, is_Some (conns (handleInit cfg c msg r s) !! c0) ↔ is_Some (conns s !! c0)).
  { intros c0. unfold handleInit. cbn [conns set_conns set_intervals].
    rewrite alter_is_Some.
    rewrite (send_dom c _ (set_tunnels _ s) c0). done. }
  assert (Hn : next_conn (handleInit cfg c msg r s) = next_conn s).
  { unfold handleInit, send. simpl. by destruct (is_open _ c). }
  split.
  - intros c0 k Hk. rewrite Hn. destruct (proj1 (Hd c0)) as [k0 Hk0]; [by eexists|].
    by apply (reg_conns s R c0 k0).
  - intros key t. rewrite handleInit_tunnels.
    destruct (decide (generateSubdomain r = key)) as [<-|Hne].
    + intros _. split; [apply generateSubdomain_length|apply all_hex_toString_hex].
    + rewrite lookup_insert_ne by done. apply R.
  - intros key t. rewrite handleInit_tunnels.
    destruct (decide (generateSubdomain r = key)) as [<-|Hne].
    + rewrite lookup_insert_eq. intros [= <-]. cbn [ws]. by apply Hd.
    + rewrite lookup_insert_ne by done. intros Hk. apply Hd. by apply (reg_ws s R key t).
Qed.

Lemma live_is_Some s c : live s c = true → is_Some (conns s !! c).
Proof. unfold live. by destruct (conns s !! c). Qed.

Lemma registry_ok_step cfg s e : registry_ok s → registry_ok (step cfg s e).
Proof.
  intros R. destruct e; cbn [step].
  - split.
    + intros c k. unfold on_connection. cbn [conns set_conns next_conn].
      destruct (decide (next_conn s = c)) as [<-|Hne]; [lia|].
      rewrite lookup_insert_ne by done. intros Hk. apply (reg_conns s R) in Hk. lia.
    + apply R.
    + intros key t Hk. unfold on_connection. cbn [conns set_conns].
      pose proof (reg_ws s R key t Hk) as [k Hs].
      destruct (decide (next_conn s = ws t)) as [E|Hne].
      * rewrite E. rewrite lookup_insert_eq. by eexists.
      * rewrite lookup_insert_ne by done. by eexists.
  - destruct (live s c) eqn:Hl; [|done]. unfold on_message.
    assert (Rc : registry_ok (ws_close c s)).
    { apply (registry_ok_dom s); [|done|done|done]. intros c0. apply alter_is_Some. }
    destruct data as [|msg]; [done|].
    destruct (get_prop msg "type") as [[[| | |ty| |]|]|]; try done.
    destruct (String.eqb ty "init");
      [apply registry_ok_handleInit; [by apply live_is_Some|done]|].
    destruct (String.eqb ty "response"); [|done].
    pose proof (handleResponse_conns msg w s) as Hc.
    destruct (handleResponse msg w s) as [s1|s1]; destruct Hc as (Ec & Et & En).
    + by apply (registry_ok_same s).
    + apply (registry_ok_dom s); [| |done|done].
      * intros c0. unfold ws_close. cbn [conns set_conns]. rewrite Ec. apply alter_is_Some.
      * intros key t. by rewrite <- Et.
  - destruct (live s c) eqn:Hl; [|done].
    destruct (live_is_Some s c Hl) as [k Hk].
    destruct (on_close_conns c s k Hk) as (Ec & Et & En).
    apply (registry_ok_dom s); [| |exact En|done].
    { intros c0. rewrite Ec. apply alter_is_Some. }
    intros key t. rewrite Et. destruct (subdomain k) as [sub|]; [|done].
    destruct (String.eqb sub ""); [done|]. intros H. by apply lookup_delete_Some in H as [_ H].
  - done.
  - unfold ping_tick. destruct (intervals s !! i); [by apply registry_ok_send|done].
  - apply (registry_ok_same s); [| | |done]; unfold on_request;
      (destruct (String.eqb _ _); [done|]);
      (destruct (tunnels _ !! _) as [t|]; [|done]);
      unfold forwardRequest; (destruct (conns _ !! ws t) as [k|]; [|done]);
      by destruct (bool_decide _).
  - by apply (registry_ok_same s).
  - unfold on_end. destruct (collecting s !! h) as [f|]; [|done].
    pose proof (registry_ok_send (in_ws f) (request_msg f) s R) as R1.
    by apply (registry_ok_same (send (in_ws f) (request_msg f) s)).
  - apply (registry_ok_same s); [| | |done]; unfold on_timeout;
      (destruct (timers s !! h); [|done]); by destruct (headersSent _ h).
Qed.

Lemma registry_ok_reachable cfg s : reachable cfg s → registry_ok s.
Proof.
  intros [evs ->]. unfold run. generalize initial, registry_ok_initial.
  induction evs as [|e evs IH]; intros s R; simpl; [done|].
  apply IH. by apply registry_ok_step.
Qed.

(** X11: in every reachable state each registered identifier has twelve
    hexadecimal digits and belongs to a socket the relay accepted. *)
Theorem registry_well_formed cfg s key t :
  reachable cfg s →
  tunnels s !! key = Some t →
  String.length key = 12 ∧ all_hex key = true
  ∧ (ws t < next_conn s)%nat ∧ is_Some (conns s !! ws t).
Proof.
  intros Hr Hk. pose proof (registry_ok_reachable cfg s Hr) as R.
  destruct (reg_keys s R key t Hk) as [Hl Hh].
  destruct (reg_ws s R key t Hk) as [k Hs].
  split; [done|]. split; [done|]. split; [by apply (reg_conns s R _ k)|by eexists].
Qed.

Lemma registry_well_formed_witness :
  String.length "a1b2c3d4e5f6" = 12 ∧ all_hex "a1b2c3d4e5f6" = true
  ∧ (0 < next_conn closing_state)%nat ∧ is_Some (conns closing_state !! 0).
Proof.
  apply (registry_well_formed default_config closing_state "a1b2c3d4e5f6"
           {| ws := 0; localPort := JNum 3000 |} closing_reachable).
  vm_compute; reflexivity.
Defined.

Lemma outbox_step_Forall k k' :
  outbox_step k k' → Forall (λ m, relay_msg m = true) (outbox k) →
  Forall (λ m, relay_msg m = true) (outbox k').
Proof.
  intros [_ [->|(_ & m & Hm & ->)]] H; [done|]. apply Forall_app. split; [done|]. by constructor.
Qed.

(** X10: in every reachable state, every message the relay has sent on any
    socket is a [ready], a [request] or a [ping]. *)
Theorem only_protocol_messages_sent cfg s c k :
  reachable cfg s →
  conns s !! c = Some k →
  Forall (λ m, relay_msg m = true) (outbox k).
Proof.
  intros [evs ->]. revert c k. unfold run.
  induction evs as [|e evs IH] using rev_ind; intros c k.
  - simpl. by rewrite lookup_empty.
  - rewrite foldl_app. cbn [foldl]. set (s := foldl (step cfg) initial evs) in *.
    intros Hk. assert (R : registry_ok s) by (apply (registry_ok_reachable cfg); by exists evs).
    pose proof (step_conns cfg s e (reg_conns s R) c k Hk) as H.
    destruct (conns s !! c) as [k0|] eqn:Hk0.
    + eapply outbox_step_Forall; [exact H|]. by apply (IH c).
    + rewrite H. constructor.
Qed.

Lemma only_protocol_messages_sent_witness :
  Forall (λ m, relay_msg m = true)
    [JObj [("type", JStr "ready");
           ("url", JStr "http://a1b2c3d4e5f6.tunnel.localhost:8081");
           ("subdomain", JStr "a1b2c3d4e5f6")];
     JObj [("type", JStr "request"); ("id", JStr id_A); ("method", JStr "GET");
           ("path", JStr "/");
           ("headers", JObj [("host", JStr "a1b2c3d4e5f6.tunnel.localhost:8081")])]].
Proof.
  apply (only_protocol_messages_sent default_config forwarded_state 0
     {| remoteAddress := "127.0.0.1"; readyState := OPEN;
        subdomain := Some "a1b2c3d4e5f6"; pingInterval := Some 0;
        outbox := [JObj [("type", JStr "ready");
                         ("url", JStr "http://a1b2c3d4e5f6.tunnel.localhost:8081");
                         ("subdomain", JStr "a1b2c3d4e5f6")];
                   JObj [("type", JStr "request"); ("id", JStr id_A); ("method", JStr "GET");
                         ("path", JStr "/");
                         ("headers",
                          JObj [("host", JStr "a1b2c3d4e5f6.tunnel.localhost:8081")])]] |}
     forwarded_reachable).
  vm_compute; reflexivity.
Defined.

Lemma live_not_closed s c k : conns s !! c = Some k → readyState k ≠ CLOSED → live s c = true.
Proof.
  intros Hk Hn. unfold live. rewrite Hk. apply negb_true_iff. by apply bool_decide_eq_false.
Qed.

(** X12: the 'close' of a socket removes from the registry the identifier it
    was last given, leaves every other registration, marks the socket closed
    and touches no other socket. *)
Theorem close_unregisters_identifier cfg c k sub s :
  conns s !! c = Some k →
  readyState k ≠ CLOSED →
  subdomain k = Some sub →
  sub ≠ "" →
  let s' := step cfg s (WsClose c) in
  tunnels s' = delete sub (tunnels s)
  ∧ readyState <$> conns s' !! c = Some CLOSED
  ∧ (∀ c', c' ≠ c → conns s' !! c' = conns s !! c').
Proof.
  intros Hk Hn Hsub Hne s'. subst s'. cbn [step]. rewrite (live_not_closed s c k) by done.
  destruct (on_close_conns c s k Hk) as (Ec & Et & _). rewrite Et, Ec, Hsub.
  destruct (String.eqb_spec sub "") as [|_]; [done|].
  split; [done|]. split.
  - by rewrite lookup_alter_eq, Hk.
  - intros c' Hc'. by rewrite lookup_alter_ne.
Qed.

Lemma close_unregisters_identifier_witness :
  tunnels (step default_config forwarded_state (WsClose 0))
  = delete "a1b2c3d4e5f6" (tunnels forwarded_state).
Proof.
  refine (proj1 (close_unregisters_identifier default_config 0
     {| remoteAddress := "127.0.0.1"; readyState := OPEN;
        subdomain := Some "a1b2c3d4e5f6"; pingInterval := Some 0;
        outbox := [ready_msg "http://a1b2c3d4e5f6.tunnel.localhost:8081" "a1b2c3d4e5f6";
                   request_msg {| in_ws := 0; in_id := id_A; in_req := get_root;
                                  in_body := "" |}] |}
     "a1b2c3d4e5f6" forwarded_state _ _ _ _)); [vm_compute; reflexivity|discriminate|reflexivity|discriminate].
Defined.

(** X13: a socket that sends [init] again is given a new identifier and only
    that one is removed when it closes: the earlier identifier stays
    registered to the closed socket, and requests for it are answered 503. *)
Theorem second_init_leaks_first_identifier cfg c k sub1 t1 msg r w s req now rnd :
  reachable cfg s →
  conns s !! c = Some k →
  readyState k = OPEN →
  tunnels s !! sub1 = Some t1 →
  ws t1 = c →
  generateSubdomain r ≠ sub1 →
  get_prop msg "type" = Normal (Some (JStr "init")) →
  extract_subdomain (host_of req) = sub1 →
  req_url req ≠ "/_health" →
  let s2 := step cfg (step cfg s (WsMessage c (Parsed msg) r w)) (WsClose c) in
  tunnels s2 !! generateSubdomain r = None
  ∧ tunnels s2 !! sub1 = Some t1
  ∧ is_open s2 c = false
  ∧ sink_log (step cfg s2 (HttpRequest req now rnd)) (next_req s2)
    = [plain 503 "Tunnel unavailable"].
Proof.
  intros Hr Hk Ho Ht Hws Hne Hty Hhost Hurl s2.
  assert (Hr2 : reachable cfg s2) by (subst s2; by do 2 apply reachable_step).
  pose proof (reachable_inv cfg s2 Hr2) as I2.
  subst s2. cbn [step] in *.
  rewrite (live_conn s c k), on_message_init in * by done.
  pose proof (handleInit_conn cfg c msg r s k Hk Ho) as Hc.
  set (s1 := handleInit cfg c msg r s) in *.
  rewrite (live_not_closed s1 c _ Hc) in * by done.
  destruct (on_close_conns c s1 _ Hc) as (Ec & Et & _). cbn [subdomain] in Et.
  destruct (String.eqb_spec (generateSubdomain r) "") as [E|_].
  { pose proof (generateSubdomain_length r) as Hl. by rewrite E in Hl. }
  set (s2 := on_close c s1) in *.
  assert (T1 : tunnels s2 !! sub1 = Some t1).
  { rewrite Et, lookup_delete_ne by done. unfold s1.
    by rewrite handleInit_tunnels, lookup_insert_ne. }
  assert (O2 : is_open s2 c = false).
  { unfold is_open. by rewrite Ec, lookup_alter_eq, Hc. }
  split; [rewrite Et; apply lookup_delete_eq|]. split; [done|]. split; [done|].
  unfold on_request. destruct (String.eqb_spec (req_url req) "/_health") as [|_]; [done|].
  rewrite Hhost. change (tunnels (alloc_req s2)) with (tunnels s2). rewrite T1.
  unfold forwardRequest. rewrite Hws. change (conns (alloc_req s2)) with (conns s2).
  unfold is_open in O2. destruct (conns s2 !! c) as [k2|].
  - rewrite O2. by apply fresh_write_log.
  - by apply fresh_write_log.
Qed.

Lemma registered_reachable : reachable default_config registered_state.
Proof. by exists registered_trace. Qed.

Lemma second_init_leaks_first_identifier_witness :
  tunnels (step default_config
             (step default_config registered_state (WsMessage 0 (Parsed init_msg) bytes_B Completed))
             (WsClose 0)) !! generateSubdomain bytes_B = None
  ∧ tunnels (step default_config
               (step default_config registered_state (WsMessage 0 (Parsed init_msg) bytes_B Completed))
               (WsClose 0)) !! "a1b2c3d4e5f6"
    = Some {| ws := 0; localPort := JNum 3000 |}
  ∧ is_open (step default_config
               (step default_config registered_state (WsMessage 0 (Parsed init_msg) bytes_B Completed))
               (WsClose 0)) 0 = false
  ∧ sink_log (step default_config
                (step default_config
                   (step default_config registered_state
                      (WsMessage 0 (Parsed init_msg) bytes_B Completed))
                   (WsClose 0))
                (HttpRequest get_root 0 "0.5"))
             (next_req (step default_config
                          (step default_config registered_state
                             (WsMessage 0 (Parsed init_msg) bytes_B Completed))
                          (WsClose 0)))
    = [plain 503 "Tunnel unavailable"].
Proof.
  exact (second_init_leaks_first_identifier default_config 0
     {| remoteAddress := "127.0.0.1"; readyState := OPEN;
        subdomain := Some "a1b2c3d4e5f6"; pingInterval := Some 0;
        outbox := [ready_msg "http://a1b2c3d4e5f6.tunnel.localhost:8081" "a1b2c3d4e5f6"] |}
     "a1b2c3d4e5f6" {| ws := 0; localPort := JNum 3000 |}
     init_msg bytes_B Completed registered_state get_root 0 "0.5"
     registered_reachable
     ltac:(vm_compute; reflexivity) eq_refl ltac:(vm_compute; reflexivity) eq_refl
     ltac:(discriminate) eq_refl eq_refl ltac:(discriminate)).
Defined.

Lemma twin_reachable : reachable default_config twin_state.
Proof. by exists twin_trace. Qed.

(** X14: when a request ends under an id that is already pending, its entry
    replaces the earlier one while both timers stay armed; a response for
    the id that Node accepts completes the later request only, and the
    earlier caller is answered 504 by its own timer. *)
Theorem colliding_id_overwrites_entry cfg s k h1 h2 f c msg r w :
  reachable cfg s →
  pendingResponses s !! k = Some h1 →
  collecting s !! h2 = Some f →
  in_id f = k →
  get_prop msg "type" = Normal (Some (JStr "response")) →
  prop msg "id" = Some (JStr k) →
  w = Completed →
  let s1 := step cfg s (HttpEnd h2) in
  let s2 := step cfg s1 (WsMessage c (Parsed msg) r w) in
  h1 ≠ h2
  ∧ pendingResponses s1 !! k = Some h2
  ∧ is_Some (timers s1 !! h1)
  ∧ (live s1 c = true →
     sink_log s2 h2 = [relayed msg]
     ∧ sink_log s2 h1 = []
     ∧ pendingResponses s2 !! k = None
     ∧ sink_log (step cfg s2 (TimerFire h1)) h1 = [plain 504 "Gateway Timeout"]).
Proof.
  intros Hr Hk Hf Hid Hty Hmid -> s1 s2.
  pose proof (reachable_inv cfg s Hr) as I.
  destruct (inv_pending s I k h1 Hk) as (Hlog1 & t1 & Ht1 & Hid1).
  destruct (inv_collecting s I h2 f Hf) as (Hlog2 & Ht2).
  assert (Hne : h1 ≠ h2) by (intros ->; congruence).
  assert (Hr1 : reachable cfg s1) by by apply reachable_step.
  pose proof (reachable_inv cfg s1 Hr1) as I1.
  assert (Hp1 : pendingResponses s1 !! k = Some h2).
  { subst s1. cbn [step]. unfold on_end. rewrite Hf, Hid.
    cbn [pendingResponses set_collecting set_pending]. apply lookup_insert_eq. }
  assert (Htm1 : timers s1 !! h1 = Some t1).
  { subst s1. cbn [step]. unfold on_end. rewrite Hf.
    cbn [timers set_collecting set_pending set_timers].
    rewrite lookup_insert_ne by done.
    by rewrite (proj1 (proj2 (proj1 (send_same (in_ws f) (request_msg f) s)))). }
  assert (Hl1 : sink_log s1 h1 = []).
  { subst s1. cbn [step]. unfold on_end. rewrite Hf.
    unfold sink_log. cbn [sinks set_collecting set_pending set_timers].
    rewrite (proj1 (proj2 (proj2 (proj1 (send_same (in_ws f) (request_msg f) s))))).
    exact Hlog1. }
  split; [done|]. split; [done|]. split; [by eexists|].
  intros Hlive. subst s2. cbn [step]. rewrite Hlive.
  rewrite on_message_response, (handleResponse_pending msg k h2) by done.
  set (s1' := set_pending (delete k) (set_timers (delete h2) s1)).
  assert (L2 : sink_log (write h2 (relayed msg) s1') h1 = []).
  { rewrite sink_log_write_ne by done. exact Hl1. }
  split.
  { rewrite sink_log_write_eq. change (sink_log s1' h2) with (sink_log s1 h2).
    by rewrite (proj1 (inv_pending s1 I1 k h2 Hp1)). }
  split; [done|]. split; [simpl; apply lookup_delete_eq|].
  unfold on_timeout.
  assert (T2 : timers (write h2 (relayed msg) s1') !! h1 = Some t1).
  { cbn [timers write set_sinks s1' set_pending set_timers]. by rewrite lookup_delete_ne. }
  rewrite T2.
  match goal with |- context [headersSent ?x h1] =>
    assert (Hs : headersSent x h1 = false) by (apply headersSent_false; exact L2);
    rewrite Hs end.
  rewrite sink_log_write_eq.
  match goal with |- (sink_log ?x h1 ++ _)%list = _ =>
    change (sink_log x h1) with (sink_log (write h2 (relayed msg) s1') h1) end.
  by rewrite L2.
Qed.

Lemma colliding_id_overwrites_entry_witness :
  pendingResponses (step default_config twin_state (HttpEnd 1)) !! id_A = Some 1
  ∧ sink_log (step default_config (step default_config twin_state (HttpEnd 1))
                (WsMessage 0 (Parsed response_A) bytes_A Completed)) 1 = [relayed response_A]
  ∧ sink_log (step default_config
                (step default_config (step default_config twin_state (HttpEnd 1))
                   (WsMessage 0 (Parsed response_A) bytes_A Completed))
                (TimerFire 0)) 0 = [plain 504 "Gateway Timeout"].
Proof.
  destruct (colliding_id_overwrites_entry default_config twin_state id_A 0 1
              {| in_ws := 0; in_id := id_A; in_req := get_root; in_body := "" |}
              0 response_A bytes_A Completed twin_reachable
              ltac:(vm_compute; reflexivity) ltac:(vm_compute; reflexivity)
              eq_refl eq_refl eq_refl eq_refl) as (_ & Hp & _ & H).
  destruct (H ltac:(vm_compute; reflexivity)) as (H2 & _ & _ & H504).
  split; [exact Hp|]. split; [exact H2|exact H504].
Defined.

End RelayExtra.

(** ** The client *)

Module ClientExtra.
Import Client ClientSpec.

Lemma delay_of_range (n : nat) : (1000 ≤ delay_of n ≤ 30000)%Z.
Proof.
  unfold delay_of, MAX_RECONNECT_DELAY.
  pose proof (Z.pow_pos_nonneg 2 (Z.of_nat n)). lia.
Qed.

(** X15: the reconnect delay lies between 1000 and 30000 ms, never decreases
    with the number of attempts, doubles for the first five attempts and is
    30000 from the sixth on. *)
Theorem delay_of_bounds (n : nat) :
  (1000 ≤ delay_of n ≤ 30000)%Z
  ∧ (∀ m, (n ≤ m)%nat → (delay_of n ≤ delay_of m)%Z)
  ∧ ((n < 5)%nat → delay_of n = (1000 * 2 ^ Z.of_nat n)%Z)
  ∧ ((5 ≤ n)%nat → delay_of n = 30000%Z).
Proof.
  unfold delay_of, MAX_RECONNECT_DELAY.
  assert (Hpos : ∀ k : nat, (1 ≤ 2 ^ Z.of_nat k)%Z).
  { intros k. pose proof (Z.pow_pos_nonneg 2 (Z.of_nat k)). lia. }
  assert (Hmono : ∀ a b : nat, (a ≤ b)%nat → (2 ^ Z.of_nat a ≤ 2 ^ Z.of_nat b)%Z).
  { intros a b Hab. apply Z.pow_le_mono_r; lia. }
  split; [pose proof (Hpos n); lia|].
  split; [intros m Hm; pose proof (Hmono n m Hm); lia|].
  split.
  - intros Hn. pose proof (Hmono n 4%nat ltac:(lia)) as H. change (2 ^ Z.of_nat 4)%Z with 16%Z in H.
    lia.
  - intros Hn. pose proof (Hmono 5%nat n Hn) as H. change (2 ^ Z.of_nat 5)%Z with 32%Z in H.
    lia.
Qed.

Lemma delay_of_bounds_witness :
  (delay_of 2 ≤ delay_of 9)%Z ∧ delay_of 2 = (1000 * 2 ^ Z.of_nat 2)%Z ∧ delay_of 9 = 30000%Z.
Proof.
  destruct (delay_of_bounds 2) as (_ & Hm & Hs & _).
  destruct (delay_of_bounds 9) as (_ & _ & _ & Hc).
  split; [apply Hm; lia|]. split; [apply Hs; lia|apply Hc; lia].
Defined.

Lemma step_scheduled argv2 s e :
  scheduled (step argv2 s e)
  = match e with
    | Close => (scheduled s ++ [delay_of (reconnectAttempts s)])%list
    | _ => scheduled s
    end.
Proof.
  destruct e; try done. cbn [step]. apply message_keeps_counter.
Qed.

(** X16: over any run the client schedules exactly one reconnect per 'close'
    and none otherwise, each with a delay between 1000 and 30000 ms. *)
Theorem one_reconnect_per_close argv2 evs : ∀ s,
  Forall (λ d, 1000 ≤ d ≤ 30000)%Z (scheduled s) →
  length (scheduled (run argv2 evs s)) = (length (scheduled s) + closes evs)%nat
  ∧ Forall (λ d, 1000 ≤ d ≤ 30000)%Z (scheduled (run argv2 evs s)).
Proof.
  induction evs as [|e evs IH]; intros s Hs; simpl; [split; [lia|done]|].
  assert (Hs' : Forall (λ d, 1000 ≤ d ≤ 30000)%Z (scheduled (step argv2 s e))).
  { rewrite step_scheduled. destruct e; try done.
    apply Forall_app. split; [done|]. constructor; [|done]. apply delay_of_range. }
  destruct (IH _ Hs') as [Hl Hf]. unfold run in *. rewrite Hl. split; [|done].
  rewrite step_scheduled. destruct e; try lia. rewrite length_app. simpl. lia.
Qed.

Lemma one_reconnect_per_close_witness :
  length (scheduled (run None failing_handshakes initial)) = (length (scheduled initial) + 2)%nat
  ∧ Forall (λ d, 1000 ≤ d ≤ 30000)%Z (scheduled (run None failing_handshakes initial)).
Proof.
  apply (one_reconnect_per_close None failing_handshakes initial). constructor.
Defined.

Lemma step_sent argv2 s e :
  ∃ l, sent (step argv2 s e) = (sent s ++ l)%list
     ∧ length l = sends e ∧ Forall (λ m, client_msg m = true) l.
Proof.
  destruct e as [| |data o| |]; cbn [step].
  - exists []. by rewrite app_nil_r.
  - eexists [_]. split; [reflexivity|]. split; [done|]. by repeat constructor.
  - unfold on_message, sends, type_of, prop. destruct data as [|msg].
    { exists []. by rewrite app_nil_r. }
    destruct (get_prop msg "type") as [[[]|]|]; try (exists []; by rewrite app_nil_r).
    destruct (String.eqb_spec s0 "ready") as [->|Hr]; [exists []; by rewrite app_nil_r|].
    destruct (String.eqb_spec s0 "request") as [->|Hq].
    + unfold handleRequest. destruct o as [res|err]; cbn [sent send];
        eexists [_]; (split; [reflexivity|]); (split; [done|]); repeat constructor;
        unfold client_msg, type_of, success_msg, failure_msg; by destruct (prop msg "id").
    + destruct (String.eqb_spec s0 "ping") as [->|Hp].
      * eexists [_]. split; [reflexivity|]. split; [done|]. by repeat constructor.
      * exists []. by rewrite app_nil_r.
  - exists []. by rewrite app_nil_r.
  - exists []. by rewrite app_nil_r.
Qed.

(** X17: over any run the client sends one message per 'open' and per
    received [request] or [ping], nothing for any other event, and every
    message it sends is an [init], a [response] or a [pong]. *)
Theorem client_sends_only_replies argv2 evs : ∀ s,
  ∃ l, sent (run argv2 evs s) = (sent s ++ l)%list
     ∧ length l = total_sends evs
     ∧ Forall (λ m, client_msg m = true) l.
Proof.
  induction evs as [|e evs IH]; intros s; simpl.
  - exists []. by rewrite app_nil_r.
  - destruct (step_sent argv2 s e) as (l1 & E1 & L1 & F1).
    destruct (IH (step argv2 s e)) as (l2 & E2 & L2 & F2).
    exists (l1 ++ l2)%list. unfold run in *. rewrite E2, E1, <- app_assoc.
    split; [done|]. split; [rewrite length_app; lia|by apply Forall_app].
Qed.

Lemma assoc_None_keys {A} k (o : list (string * A)) : assoc k o = None ↔ k ∉ o.*1.
Proof.
  induction o as [|[k' v] o IH]; [split; [intros _; apply not_elem_of_nil|done]|].
  rewrite fmap_cons, not_elem_of_cons. cbn [fst assoc].
  destruct (String.eqb_spec k k') as [->|Hne].
  - split; [done|]. by intros [? _].
  - rewrite IH. split; [done|]. by intros [_ ?].
Qed.

Lemma set_prop_keys k v o :
  keys (set_prop k v o)
  = (keys o ++ match assoc k o with Some _ => [] | None => [k] end)%list.
Proof.
  unfold keys. induction o as [|[k' v'] o IH]; [done|]. cbn [set_prop assoc].
  destruct (String.eqb_spec k k') as [->|Hne].
  - rewrite !fmap_cons. cbn [fst]. by rewrite app_nil_r.
  - rewrite !fmap_cons, IH. done.
Qed.

Lemma set_prop_same k v o : assoc k o = Some v → set_prop k v o = o.
Proof.
  induction o as [|[k' v'] o IH]; simpl; [done|].
  destruct (String.eqb_spec k k') as [->|Hne].
  - by intros [= ->].
  - intros H. by rewrite IH.
Qed.

Lemma set_prop_NoDup k v o : NoDup (keys o) → NoDup (keys (set_prop k v o)).
Proof.
  intros Hnd. rewrite set_prop_keys. destruct (assoc k o) eqn:E.
  - by rewrite app_nil_r.
  - apply NoDup_app. split; [done|]. split; [|apply NoDup_singleton].
    intros x Hx Hk. apply list_elem_of_singleton in Hk as ->.
    by apply assoc_None_keys in E.
Qed.

(** X18: the headers given to the local service have the fields of the
    request and, beyond them, only [host] and [x-forwarded-proto]; no
    duplicate field is introduced, a second pass changes nothing, and they
    are exactly the two fields when the request carries none. *)
Theorem forward_headers_shape argv2 (hs : jsval) :
  let out := forward_headers argv2 hs in
  (∀ k, k ∈ keys out ↔ k ∈ keys (spread hs) ∨ k = "host" ∨ k = "x-forwarded-proto")
  ∧ (NoDup (keys (spread hs)) → NoDup (keys out))
  ∧ forward_headers argv2 (Some (JObj out)) = out
  ∧ (spread hs = [] →
     out = [("host", JStr ("localhost:" +:+ port_text argv2));
            ("x-forwarded-proto", JStr "https")]).
Proof.
  intros out. subst out. unfold forward_headers.
  set (h := JStr ("localhost:" +:+ port_text argv2)).
  set (o := spread hs).
  split; [|split; [|split]].
  - intros k. rewrite !set_prop_keys, !elem_of_app.
    split.
    + intros [[?|H]|H]; [by left| |].
      * destruct (assoc "host" o); [by apply elem_of_nil in H|].
        apply list_elem_of_singleton in H. by right; left.
      * destruct (assoc _ (set_prop _ _ _)); [by apply elem_of_nil in H|].
        apply list_elem_of_singleton in H. by right; right.
    + intros [H|[ -> | -> ]]; [by left; left| |].
      * destruct (assoc "host" o) eqn:E; [|left; right; by apply list_elem_of_singleton].
        left; left. unfold keys. destruct (decide ("host" ∈ o.*1)) as [|Hn]; [done|].
        apply assoc_None_keys in Hn. congruence.
      * destruct (assoc "x-forwarded-proto" (set_prop "host" h o)) eqn:E;
          [|right; by apply list_elem_of_singleton].
        left; left. rewrite assoc_set_prop_ne in E by done. unfold keys.
        destruct (decide ("x-forwarded-proto" ∈ o.*1)) as [|Hn]; [done|].
        apply assoc_None_keys in Hn. congruence.
  - intros Hnd. by do 2 apply set_prop_NoDup.
  - cbn [spread].
    rewrite (set_prop_same "host" h) by (rewrite assoc_set_prop_ne by done; apply assoc_set_prop_eq).
    apply set_prop_same, assoc_set_prop_eq.
  - by intros ->.
Qed.

Lemma forward_headers_shape_witness :
  NoDup (keys (forward_headers None (Some (JObj [("accept", JStr "*/*")]))))
  ∧ forward_headers None None
    = [("host", JStr ("localhost:" +:+ port_text None)); ("x-forwarded-proto", JStr "https")].
Proof.
  split.
  - apply (proj1 (proj2 (forward_headers_shape None (Some (JObj [("accept", JStr "*/*")]))))).
    apply NoDup_singleton.
  - apply (proj2 (proj2 (proj2 (forward_headers_shape None None)))). reflexivity.
Defined.

(** X19: on 'open' the client sends exactly one [init] carrying the port
    argument, or 3000 when the argument is missing or empty, resets the
    attempt counter and schedules nothing. *)
Theorem open_announces_local_port argv2 s :
  let p := match argv2 with
           | Some a => if String.eqb a "" then JNum 3000 else JStr a
           | None => JNum 3000
           end in
  sent (step argv2 s Open) = (sent s ++ [JObj [("type", JStr "init"); ("localPort", p)]])%list
  ∧ reconnectAttempts (step argv2 s Open) = 0
  ∧ scheduled (step argv2 s Open) = scheduled s
  ∧ port_text argv2 = match p with JStr a => a | _ => "3000" end.
Proof.
  cbn [step]. unfold on_open, port_text, localPort, or_else. simpl.
  destruct argv2 as [a|]; simpl; [|done].
  by destruct (String.eqb a "").
Qed.

End ClientExtra.

(** ** Relay and client together *)

Module TunnelExtra.
Import Relay RelaySpec RelayExtra Tunnel.


Lemma request_msg_props f :
  get_prop (request_msg f) "type" = Normal (Some (JStr "request"))
  ∧ prop (request_msg f) "id" = Some (JStr (in_id f))
  ∧ prop (request_msg f) "method" = Some (JStr (req_method (in_req f)))
  ∧ prop (request_msg f) "path" = Some (JStr (req_url (in_req f)))
  ∧ prop (request_msg f) "headers" = Some (JObj (prod_map id JStr <$> req_headers (in_req f)))
  ∧ prop (request_msg f) "body"
    = (if String.eqb (in_body f) "" then None else Some (JStr (in_body f))).
Proof.
  unfold request_msg, prop, get_prop. cbn [app assoc String.eqb Ascii.eqb Bool.eqb].
  repeat split. by destruct (String.eqb (in_body f) "").
Qed.

(** X20: relay and client composed: the [request] the relay sends for an
    accepted request makes the client call the local service with the
    request's method, path and body and the host replaced, and the client's
    reply, handed back to the relay, gives the caller exactly the local
    answer, or 502 with the error's message when the call failed, provided
    Node accepts the reply's status, headers and body. *)
Theorem tunnel_round_trip cfg argv2 s h f k c r w (o : Client.outcome) (cs : Client.client) :
  reachable cfg s →
  collecting s !! h = Some f →
  conns s !! in_ws f = Some k →
  readyState k = OPEN →
  w = Completed →
  let s1 := step cfg s (HttpEnd h) in
  let cs1 := Client.on_message argv2 (Parsed (request_msg f)) o cs in
  live s1 c = true →
  ∃ call reply,
    outbox_of s1 (in_ws f) = (outbox k ++ [request_msg f])%list
    ∧ Client.forwarded cs1 = (Client.forwarded cs ++ [call])%list
    ∧ Client.hostname call = "localhost"
    ∧ Client.method call = Some (JStr (req_method (in_req f)))
    ∧ Client.path call = Some (JStr (req_url (in_req f)))
    ∧ Client.written call
      = (if String.eqb (in_body f) "" then None else Some (JStr (in_body f)))
    ∧ assoc "host" (Client.headers call)
      = Some (JStr ("localhost:" +:+ Client.port_text argv2))
    ∧ Client.sent cs1 = (Client.sent cs ++ [reply])%list
    ∧ sink_log (step cfg s1 (WsMessage c (Parsed reply) r w)) h = [delivered o].
Proof.
  intros Hr Hf Hk Ho -> s1 cs1 Hlive.
  destruct (request_msg_props f) as (Hty & Hid & Hm & Hp & Hh & Hb).
  assert (Hr1 : reachable cfg s1) by by apply reachable_step.
  pose proof (reachable_inv cfg s1 Hr1) as I1.
  assert (Hp1 : pendingResponses s1 !! in_id f = Some h).
  { subst s1. cbn [step]. unfold on_end. rewrite Hf.
    cbn [pendingResponses set_collecting set_pending]. apply lookup_insert_eq. }
  assert (Hout : outbox_of s1 (in_ws f) = (outbox k ++ [request_msg f])%list).
  { subst s1. cbn [step]. unfold on_end, outbox_of. rewrite Hf.
    cbn [conns set_collecting set_pending set_timers].
    rewrite (send_open _ _ s k) by done. by rewrite lookup_insert_eq. }
  subst cs1. rewrite ClientSpec.on_message_request by done.
  unfold Client.handleRequest. rewrite Hid, Hm, Hp, Hh, Hb.
  eexists _, (match o with
              | Client.Resolved res => Client.success_msg (Some (JStr (in_id f))) res
              | Client.Rejected e => Client.failure_msg (Some (JStr (in_id f))) e
              end).
  split; [exact Hout|]. split; [by destruct o|].
  split; [done|]. split; [done|]. split; [done|].
  split; [cbn [Client.written Client.forwardToLocalhost];
          by destruct (String.eqb_spec (in_body f) "") as [|Hne];
            [|simpl; destruct (String.eqb_spec (in_body f) "")]|].
  split.
  { cbn [Client.headers Client.forwardToLocalhost]. unfold Client.forward_headers.
    rewrite assoc_set_prop_ne by done. apply assoc_set_prop_eq. }
  split; [by destruct o|].
  rewrite (response_completes cfg s1 c _ r (in_id f) h I1 Hlive).
  - by destruct o.
  - by destruct o.
  - by destruct o.
  - done.
Qed.

Lemma collecting_reachable : reachable default_config collecting_state.
Proof.
  by exists [WsConnection "127.0.0.1"; WsMessage 0 init_frame bytes_A Completed;
             HttpRequest get_root 1700000000000 "0.5"].
Qed.

Lemma tunnel_round_trip_witness :
  ∃ reply,
    Client.sent (Client.on_message None
                   (Parsed (request_msg {| in_ws := 0; in_id := id_A; in_req := get_root;
                                           in_body := "" |}))
                   (Client.Resolved local_hello) Client.initial)
    = (Client.sent Client.initial ++ [reply])%list
    ∧ sink_log (step default_config (step default_config collecting_state (HttpEnd 0))
                  (WsMessage 0 (Parsed reply) bytes_A Completed)) 0
      = [delivered (Client.Resolved local_hello)].
Proof.
  destruct (tunnel_round_trip default_config None collecting_state 0
              {| in_ws := 0; in_id := id_A; in_req := get_root; in_body := "" |}
              {| remoteAddress := "127.0.0.1"; readyState := OPEN;
                 subdomain := Some "a1b2c3d4e5f6"; pingInterval := Some 0;
                 outbox := [ready_msg "http://a1b2c3d4e5f6.tunnel.localhost:8081"
                              "a1b2c3d4e5f6"] |}
              0 bytes_A Completed (Client.Resolved local_hello) Client.initial
              collecting_reachable
              ltac:(vm_compute; reflexivity) ltac:(vm_compute; reflexivity) eq_refl
              eq_refl ltac:(vm_compute; reflexivity))
    as (call & reply & _ & _ & _ & _ & _ & _ & _ & Hsent & Hsink).
  exists reply. split; [exact Hsent|exact Hsink].
Defined.

End TunnelExtra.
